(** * common/threads/Pthread.h: RAII wrappers over the native pthread API

    The header defines four thin classes in namespace [avd]: [Mutex],
    [ConditionVariable], [LockGuard<M>] (with a specialization for a raw
    [pthread_mutex_t]) and [ScopedThread].  Every member function is a short
    sequence of calls into the platform's pthread library.

    The embedding keeps that shape.  A member function is a program: a finite
    tree of calls into an interface, each followed by a continuation that
    receives the call's answer.  The pthread library itself is not part of the
    header, so it is never defined here: a program is run against an arbitrary
    environment (a state type and a function answering each call, or not
    answering when the call blocks for ever), and the theorems quantify over
    all environments. *)

From Stdlib Require Import ZArith List Bool Lia.
Import ListNotations.
Local Open Scope Z_scope.

(** ** Programs over an interface *)

(** An interface: its operations and, for each, the type of the answer. *)
Record Sig : Type := MkSig { op : Type; ans : op -> Type }.

(** [Ret a] returns; [Vis e k] calls [e] and continues with [k] on its
    answer. *)
Inductive Prog (S : Sig) (A : Type) : Type :=
| Ret (a : A)
| Vis (e : op S) (k : ans S e -> Prog S A).

Arguments Ret {S A} a.
Arguments Vis {S A} e k.

Fixpoint bind {S : Sig} {A B : Type} (p : Prog S A) (f : A -> Prog S B)
  : Prog S B :=
  match p with
  | Ret a => f a
  | Vis e k => Vis e (fun x => bind (k x) f)
  end.

(** A single call, returning its answer. *)
Definition call {S : Sig} (e : op S) : Prog S (ans S e) := Vis e (fun x => Ret x).

Declare Scope prog_scope.
Delimit Scope prog_scope with prog.
Notation "x <- p ;; q" := (bind p (fun x => q))
  (at level 61, p at next level, right associativity) : prog_scope.
Notation "p ;; q" := (bind p (fun _ => q))
  (at level 61, right associativity) : prog_scope.
Local Open Scope prog_scope.

(** An environment for interface [S] with state [W] answers a call in a state
    with [Some (answer, next state)], or with [None] when the call never
    returns (a lock that is never granted, a thread that never ends). *)
Definition Env (S : Sig) (W : Type) : Type :=
  forall e : op S, W -> option (ans S e * W).

(** Running a program gives the calls it issued, in order, and its result
    with the final state when every call returned.  A call that does not
    return is the last of the trace and the program has no result. *)
Fixpoint run {S : Sig} {W A : Type} (h : Env S W) (p : Prog S A) (w : W)
  : list (op S) * option (A * W) :=
  match p with
  | Ret a => ([], Some (a, w))
  | Vis e k =>
      match h e w with
      | None => ([e], None)
      | Some (x, w') => let (t, r) := run h (k x) w' in (e :: t, r)
      end
  end.

Definition trace {S : Sig} {W A : Type} (h : Env S W) (p : Prog S A) (w : W)
  : list (op S) := fst (run h p w).

Definition result {S : Sig} {W A : Type} (h : Env S W) (p : Prog S A) (w : W)
  : option (A * W) := snd (run h p w).

(** A program written against interface [S] runs over interface [T] once every
    operation of [S] is given a body over [T] (a template instantiated at a
    concrete class). *)
Fixpoint interp {S T : Sig} {A : Type}
  (body : forall e : op S, Prog T (ans S e)) (p : Prog S A) : Prog T A :=
  match p with
  | Ret a => Ret a
  | Vis e k => bind (body e) (fun x => interp body (k x))
  end.

(** ** The native interface (<pthread.h>) *)

(** Addresses of native objects ([&mutex_], [&cond_], [&attr]) and opaque
    pointers ([void*]). *)
Definition addr : Type := N.

(** Thread identifiers, function pointers. *)
Definition pthread_t : Type := N.
Definition fnptr : Type := N.

Inductive clockid_t : Type := CLOCK_REALTIME | CLOCK_MONOTONIC.

Record timespec : Type := { tv_sec : Z; tv_nsec : Z }.

(** The pthread functions the header calls, with the arguments it passes.
    An attribute pointer is [None] for [NULL].  Pointers through which the
    library only writes are left out of the call and appear in its answer:
    [pthread_create]'s first argument ([&thread_]) and [pthread_join]'s second
    ([&value]).  The [timespec] a timed wait reads through its last argument
    is passed by content. *)
Inductive pthread_call : Type :=
| pthread_mutex_init (m : addr) (attr : option addr)
| pthread_mutex_destroy (m : addr)
| pthread_mutex_lock (m : addr)
| pthread_mutex_unlock (m : addr)
| pthread_condattr_init (a : addr)
| pthread_condattr_setclock (a : addr) (clock : clockid_t)
| pthread_condattr_destroy (a : addr)
| pthread_cond_init (c : addr) (attr : option addr)
| pthread_cond_destroy (c : addr)
| pthread_cond_signal (c : addr)
| pthread_cond_broadcast (c : addr)
| pthread_cond_wait (c m : addr)
| pthread_cond_timedwait (c m : addr) (ts : timespec)
| pthread_cond_timedwait_monotonic_np (c m : addr) (ts : timespec)
| pthread_create (attr : option addr) (start : fnptr) (arg : addr)
| pthread_join (thread : pthread_t).

(** Every function returns an [int] status.  [pthread_create] also stores a
    thread identifier, or stores nothing; [pthread_join] also stores the
    thread's return value, or stores nothing. *)
Definition pthread_ans (c : pthread_call) : Type :=
  match c with
  | pthread_create _ _ _ => (Z * option pthread_t)%type
  | pthread_join _ => (Z * option addr)%type
  | _ => Z
  end.

Canonical Structure pthread : Sig := MkSig pthread_call pthread_ans.

(** The [int] a call returned, and what it stored besides. *)
Definition status (c : pthread_call) : pthread_ans c -> Z :=
  match c return pthread_ans c -> Z with
  | pthread_create _ _ _ => fun x => fst x
  | pthread_join _ => fun x => fst x
  | _ => fun x => x
  end.

Definition stored (c : pthread_call) : pthread_ans c -> option N :=
  match c return pthread_ans c -> option N with
  | pthread_create _ _ _ => fun x => snd x
  | pthread_join _ => fun x => snd x
  | _ => fun _ => None
  end.

(** ** class Mutex *)

Module Mutex.

(** The object is its one member; [mutex_] is the address [&mutex_] under
    which the library knows the native mutex. *)
Record t : Type := { mutex_ : addr }.

Definition ctor (this : addr) : Prog pthread t :=
  call (pthread_mutex_init this None);;
  Ret {| mutex_ := this |}.

Definition dtor (m : t) : Prog pthread unit :=
  call (pthread_mutex_destroy (mutex_ m));;
  Ret tt.

Definition Lock (m : t) : Prog pthread unit :=
  call (pthread_mutex_lock (mutex_ m));;
  Ret tt.

Definition Unlock (m : t) : Prog pthread unit :=
  call (pthread_mutex_unlock (mutex_ m));;
  Ret tt.

Definition GetMutex (m : t) : addr := mutex_ m.

End Mutex.

(** ** class ConditionVariable *)

Module ConditionVariable.

Record t : Type := { mutex_ : Mutex.t; cond_ : addr }.

Section Platform.

(** From <api_level_fixes.h>: the value of [GCE_PLATFORM_SDK_BEFORE(L)],
    fixed when the header is compiled. *)
Variable GCE_PLATFORM_SDK_BEFORE_L : bool.

(** From <MonotonicTime.h>: [avd::time::MonotonicTimePoint] and the
    [timespec] its const member [ToTimespec] writes. *)
Variable MonotonicTimePoint : Type.
Variable ToTimespec : MonotonicTimePoint -> timespec.

(** [this] is [&cond_]; [attr] is the address of the local
    [pthread_condattr_t attr] of the second branch. *)
Definition ctor (this attr : addr) (mutex : Mutex.t) : Prog pthread t :=
  if GCE_PLATFORM_SDK_BEFORE_L then
    call (pthread_cond_init this None);;
    Ret {| mutex_ := mutex; cond_ := this |}
  else
    call (pthread_condattr_init attr);;
    call (pthread_condattr_setclock attr CLOCK_MONOTONIC);;
    call (pthread_cond_init this (Some attr));;
    call (pthread_condattr_destroy attr);;
    Ret {| mutex_ := mutex; cond_ := this |}.

Definition dtor (cv : t) : Prog pthread unit :=
  call (pthread_cond_destroy (cond_ cv));;
  Ret tt.

Definition NotifyOne (cv : t) : Prog pthread Z :=
  call (pthread_cond_signal (cond_ cv)).

Definition NotifyAll (cv : t) : Prog pthread Z :=
  call (pthread_cond_broadcast (cond_ cv)).

Definition Wait (cv : t) : Prog pthread Z :=
  call (pthread_cond_wait (cond_ cv) (Mutex.GetMutex (mutex_ cv))).

Definition WaitUntil (cv : t) (tp : MonotonicTimePoint) : Prog pthread Z :=
  let ts := ToTimespec tp in
  if GCE_PLATFORM_SDK_BEFORE_L then
    call (pthread_cond_timedwait_monotonic_np
            (cond_ cv) (Mutex.GetMutex (mutex_ cv)) ts)
  else
    call (pthread_cond_timedwait
            (cond_ cv) (Mutex.GetMutex (mutex_ cv)) ts).

End Platform.

Arguments WaitUntil GCE_PLATFORM_SDK_BEFORE_L {MonotonicTimePoint} ToTimespec cv tp.

End ConditionVariable.

(** ** template <typename M> class LockGuard *)

Module LockGuard.

Section Generic.

(** The template parameter, and the types its [Lock()] and [Unlock()]
    return; the guard uses both calls as statements. *)
Variables (M LockRet UnlockRet : Type).

(** What the template requires of [M]. *)
Inductive method : Type :=
| Lock (m : M)
| Unlock (m : M).

Definition method_ans (e : method) : Type :=
  match e with
  | Lock _ => LockRet
  | Unlock _ => UnlockRet
  end.

Canonical Structure iface : Sig := MkSig method method_ans.

(** [M& mutex_]: the guard refers to the caller's lock. *)
Record t : Type := { mutex_ : M }.

Definition ctor (mutex : M) : Prog iface t :=
  let this := {| mutex_ := mutex |} in
  call (Lock (mutex_ this));;
  Ret this.

Definition dtor (g : t) : Prog iface unit :=
  call (Unlock (mutex_ g));;
  Ret tt.

(** A block that declares a guard: the guard is constructed, the rest of
    the block runs to its outcome [A] (a value, an early return or an
    error on its way out), the guard is destroyed, the outcome leaves
    the block. *)
Definition scope {A : Type} (mutex : M) (body : Prog iface A)
  : Prog iface A :=
  g <- ctor mutex;;
  r <- body;;
  dtor g;;
  Ret r.

(** The releases in a trace, whatever the lock. *)
Definition is_Unlock (e : method) : bool :=
  match e with
  | Unlock _ => true
  | Lock _ => false
  end.

Definition is_Lock (e : method) : bool := negb (is_Unlock e).

End Generic.

Arguments Lock {M} m.
Arguments Unlock {M} m.
Arguments method_ans {M} LockRet UnlockRet e.
Arguments mutex_ {M} _.
Arguments ctor {M} LockRet UnlockRet mutex.
Arguments dtor {M} LockRet UnlockRet g.
Arguments scope {M} LockRet UnlockRet {A} mutex body.
Arguments is_Unlock {M} e.
Arguments is_Lock {M} e.

(** [LockGuard<Mutex>]: the methods the template calls are those of
    [Mutex]. *)
Definition Mutex_methods (e : op (iface Mutex.t unit unit))
  : Prog pthread (ans (iface Mutex.t unit unit) e) :=
  match e return Prog pthread (method_ans unit unit e) with
  | Lock m => Mutex.Lock m
  | Unlock m => Mutex.Unlock m
  end.

End LockGuard.

(** ** template<> class LockGuard<pthread_mutex_t> *)

Module LockGuard_pthread_mutex_t.

(** [pthread_mutex_t& mutex_] is the address of the caller's native mutex. *)
Record t : Type := { mutex_ : addr; unlock_ : bool }.

Definition ctor (mutex : addr) : Prog pthread t :=
  let this := {| mutex_ := mutex; unlock_ := false |} in
  r <- call (pthread_mutex_lock (mutex_ this));;
  Ret {| mutex_ := mutex_ this; unlock_ := (r =? 0) |}.

Definition dtor (g : t) : Prog pthread unit :=
  if unlock_ g then
    call (pthread_mutex_unlock (mutex_ g));;
    Ret tt
  else Ret tt.

End LockGuard_pthread_mutex_t.

(** ** class ScopedThread *)

Module ScopedThread.

Record t : Type := { thread_ : pthread_t }.

(** The member [thread_] has no initializer: [thread0] is whatever the
    object's storage held before.  [pthread_create] overwrites it when it
    stores an identifier. *)
Definition ctor (thread0 : pthread_t) (start : fnptr) (arg : addr)
  : Prog pthread t :=
  x <- call (pthread_create None start arg);;
  Ret {| thread_ := match snd x with
                    | Some th => th
                    | None => thread0
                    end |}.

Definition dtor (s : t) : Prog pthread unit :=
  call (pthread_join (thread_ s));;
  Ret tt.

End ScopedThread.

(** ** Vocabulary of the properties *)

(** The two ways the header can set up and wait on a condition variable. *)
Inductive flavor : Type := Fallback | MonotonicClock.

(** [GCE_PLATFORM_SDK_BEFORE(L)] true selects the fallback. *)
Definition selected (sdk_before_L : bool) : flavor :=
  if sdk_before_L then Fallback else MonotonicClock.

(** The flavor a native call belongs to: initialisation with default
    attributes and the [_monotonic_np] timed wait are the fallback; the
    attribute calls, initialisation with an attribute and the standard timed
    wait are the monotonic-clock flavor.  Other calls belong to neither. *)
Definition flavor_of (c : pthread_call) : option flavor :=
  match c with
  | pthread_cond_init _ None => Some Fallback
  | pthread_cond_timedwait_monotonic_np _ _ _ => Some Fallback
  | pthread_condattr_init _ => Some MonotonicClock
  | pthread_condattr_setclock _ CLOCK_MONOTONIC => Some MonotonicClock
  | pthread_condattr_destroy _ => Some MonotonicClock
  | pthread_cond_init _ (Some _) => Some MonotonicClock
  | pthread_cond_timedwait _ _ _ => Some MonotonicClock
  | _ => None
  end.

(** Two native environments that differ at most in the status each call
    returns: they block on the same calls, store the same things and move to
    the same state. *)
Definition same_but_status {W : Type} (h1 h2 : Env pthread W) : Prop :=
  forall (c : pthread_call) (w : W),
    match h1 c w, h2 c w with
    | Some (x1, w1), Some (x2, w2) => stored c x1 = stored c x2 /\ w1 = w2
    | None, None => True
    | _, _ => False
    end.

(** A program that never looks at a status: after each call it continues the
    same way for any two answers that store the same. *)
Inductive status_blind {A : Type} : Prog pthread A -> Prop :=
| blind_Ret (a : A) : status_blind (Ret a)
| blind_Vis (c : pthread_call) (k : pthread_ans c -> Prog pthread A) :
    (forall x y, stored c x = stored c y -> k x = k y) ->
    (forall x, status_blind (k x)) ->
    status_blind (Vis (S := pthread) c k).

(** A program whose run depends on a status: two native environments that
    differ at most in the statuses they return make it run differently. *)
Definition status_sensitive {A : Type} (p : Prog pthread A) : Prop :=
  exists (W : Type) (h1 h2 : Env pthread W) (w : W),
    same_but_status h1 h2 /\ run h1 p w <> run h2 p w.

(** The lifetime of a [ScopedThread] object: constructed, destroyed. *)
Definition ScopedThread_lifetime (thread0 : pthread_t) (start : fnptr)
  (arg : addr) : Prog pthread unit :=
  s <- ScopedThread.ctor thread0 start arg;;
  ScopedThread.dtor s.

(** The lifetime of a raw-handle guard around a block [body]. *)
Definition raw_scope {A : Type} (mutex : addr) (body : Prog pthread A)
  : Prog pthread A :=
  g <- LockGuard_pthread_mutex_t.ctor mutex;;
  r <- body;;
  LockGuard_pthread_mutex_t.dtor g;;
  Ret r.

(** ** Instrumented native libraries, for concrete runs *)

Module Fake.

(** The answer that returns status [r] and stores [o]. *)
Definition answer (c : pthread_call) (r : Z) (o : option N) : pthread_ans c :=
  match c return pthread_ans c with
  | pthread_create _ _ _ => (r, o)
  | pthread_join _ => (r, o)
  | _ => r
  end.

(** A scripted library.  The state is the list of answers still to give;
    each call takes the next one, its status passed through [f]; with the
    script used up the call never returns. *)
Definition env (f : Z -> Z) : Env pthread (list (Z * option N)) :=
  fun c w =>
    match w with
    | [] => None
    | (r, o) :: w' => Some (answer c (f r) o, w')
    end.

Definition EBUSY : Z := 16.
Definition EAGAIN : Z := 11.

(** An instrumented lock for the template: it counts the calls to [Lock]
    and to [Unlock], and its [Lock] reports failure. *)
Definition counting : Env (LockGuard.iface unit bool unit) (nat * nat) :=
  fun e w =>
    match e return option (LockGuard.method_ans bool unit e * (nat * nat)) with
    | LockGuard.Lock _ => Some (false, (S (fst w), snd w))
    | LockGuard.Unlock _ => Some (tt, (fst w, S (snd w)))
    end.

(** A table of locks named by numbers, for the template: the state lists
    the locks held; [Lock] of a held lock never returns, [Lock] of a free
    one takes it, [Unlock] frees. *)
Definition locks : Env (LockGuard.iface N unit unit) (list N) :=
  fun e w =>
    match e return option (LockGuard.method_ans unit unit e * list N) with
    | LockGuard.Lock m =>
        if existsb (N.eqb m) w then None else Some (tt, m :: w)
    | LockGuard.Unlock m =>
        Some (tt, filter (fun x => negb (N.eqb m x)) w)
    end.

End Fake.

(** ** Uses of the classes *)

(** A block that declares a [LockGuard<Mutex>] and then runs native code:
    the template's constructor and destructor with the methods of [Mutex]
    in place of [M]'s. *)
Definition Mutex_scope {A : Type} (m : Mutex.t) (body : Prog pthread A)
  : Prog pthread A :=
  g <- interp LockGuard.Mutex_methods (LockGuard.ctor unit unit m);;
  r <- body;;
  interp LockGuard.Mutex_methods (LockGuard.dtor unit unit g);;
  Ret r.

(** A caller's use of one [Mutex] object between its construction and its
    destruction: any sequence of its two methods. *)
Inductive Mutex_op : Type := do_Lock | do_Unlock.

Definition Mutex_do (m : Mutex.t) (o : Mutex_op) : Prog pthread unit :=
  match o with
  | do_Lock => Mutex.Lock m
  | do_Unlock => Mutex.Unlock m
  end.

Fixpoint Mutex_use (m : Mutex.t) (ops : list Mutex_op) : Prog pthread unit :=
  match ops with
  | [] => Ret tt
  | o :: ops' => Mutex_do m o;; Mutex_use m ops'
  end.

Definition Mutex_life (this : addr) (ops : list Mutex_op) : Prog pthread unit :=
  m <- Mutex.ctor this;;
  Mutex_use m ops;;
  Mutex.dtor m.

(** The native call behind each of the two methods, on the mutex at [a]. *)
Definition Mutex_call (a : addr) (o : Mutex_op) : pthread_call :=
  match o with
  | do_Lock => pthread_mutex_lock a
  | do_Unlock => pthread_mutex_unlock a
  end.

(** The native mutex a [pthread_mutex_*] call works on. *)
Definition mutex_of (c : pthread_call) : option addr :=
  match c with
  | pthread_mutex_init m _ => Some m
  | pthread_mutex_destroy m => Some m
  | pthread_mutex_lock m => Some m
  | pthread_mutex_unlock m => Some m
  | _ => None
  end.

(** A caller's use of one [ConditionVariable] object: any sequence of its
    four methods; the statuses they return are collected in order. *)
Inductive CV_op (T : Type) : Type :=
| do_NotifyOne
| do_NotifyAll
| do_Wait
| do_WaitUntil (tp : T).

Arguments do_NotifyOne {T}.
Arguments do_NotifyAll {T}.
Arguments do_Wait {T}.
Arguments do_WaitUntil {T} tp.

Section ConditionVariableUse.

Variable GCE_PLATFORM_SDK_BEFORE_L : bool.
Variable MonotonicTimePoint : Type.
Variable ToTimespec : MonotonicTimePoint -> timespec.

Definition CV_do (cv : ConditionVariable.t) (o : CV_op MonotonicTimePoint)
  : Prog pthread Z :=
  match o with
  | do_NotifyOne => ConditionVariable.NotifyOne cv
  | do_NotifyAll => ConditionVariable.NotifyAll cv
  | do_Wait => ConditionVariable.Wait cv
  | do_WaitUntil tp =>
      ConditionVariable.WaitUntil GCE_PLATFORM_SDK_BEFORE_L ToTimespec cv tp
  end.

Fixpoint CV_use (cv : ConditionVariable.t)
  (ops : list (CV_op MonotonicTimePoint)) : Prog pthread (list Z) :=
  match ops with
  | [] => Ret []
  | o :: ops' =>
      r <- CV_do cv o;;
      rs <- CV_use cv ops';;
      Ret (r :: rs)
  end.

Definition CV_life (this attr : addr) (mutex : Mutex.t)
  (ops : list (CV_op MonotonicTimePoint)) : Prog pthread (list Z) :=
  cv <- ConditionVariable.ctor GCE_PLATFORM_SDK_BEFORE_L this attr mutex;;
  rs <- CV_use cv ops;;
  ConditionVariable.dtor cv;;
  Ret rs.

(** The native call behind each of the four methods, for the condition
    variable at [c] bound to the native mutex [m]. *)
Definition CV_call (c m : addr) (o : CV_op MonotonicTimePoint) : pthread_call :=
  match o with
  | do_NotifyOne => pthread_cond_signal c
  | do_NotifyAll => pthread_cond_broadcast c
  | do_Wait => pthread_cond_wait c m
  | do_WaitUntil tp =>
      if GCE_PLATFORM_SDK_BEFORE_L
      then pthread_cond_timedwait_monotonic_np c m (ToTimespec tp)
      else pthread_cond_timedwait c m (ToTimespec tp)
  end.

(** The three classes together: a [ConditionVariable] is constructed over a
    [Mutex]; then a block holds the [Mutex] through a [LockGuard<Mutex>] and
    calls one method of the [ConditionVariable]. *)
Definition guarded (this attr : addr) (mutex : Mutex.t)
  (o : CV_op MonotonicTimePoint) : Prog pthread Z :=
  cv <- ConditionVariable.ctor GCE_PLATFORM_SDK_BEFORE_L this attr mutex;;
  Mutex_scope mutex (CV_do cv o).

End ConditionVariableUse.

Arguments CV_call GCE_PLATFORM_SDK_BEFORE_L {MonotonicTimePoint} ToTimespec c m o.
Arguments guarded GCE_PLATFORM_SDK_BEFORE_L {MonotonicTimePoint} ToTimespec
  this attr mutex o.

Arguments CV_do GCE_PLATFORM_SDK_BEFORE_L {MonotonicTimePoint} ToTimespec cv o.
Arguments CV_use GCE_PLATFORM_SDK_BEFORE_L {MonotonicTimePoint} ToTimespec cv ops.
Arguments CV_life GCE_PLATFORM_SDK_BEFORE_L {MonotonicTimePoint} ToTimespec
  this attr mutex ops.

(** What a native call made on behalf of a condition variable at [c], bound
    to the native mutex [m] and set up through the attribute object [a], may
    be: a call on [c], a wait on [c] with [m], or an attribute call on [a].
    No call on a mutex or on a thread is among them. *)
Definition cond_call_on (c m a : addr) (e : pthread_call) : bool :=
  match e with
  | pthread_cond_init c' None => N.eqb c' c
  | pthread_cond_init c' (Some a') => N.eqb c' c && N.eqb a' a
  | pthread_cond_destroy c' => N.eqb c' c
  | pthread_cond_signal c' => N.eqb c' c
  | pthread_cond_broadcast c' => N.eqb c' c
  | pthread_cond_wait c' m' => N.eqb c' c && N.eqb m' m
  | pthread_cond_timedwait c' m' _ => N.eqb c' c && N.eqb m' m
  | pthread_cond_timedwait_monotonic_np c' m' _ => N.eqb c' c && N.eqb m' m
  | pthread_condattr_init a' => N.eqb a' a
  | pthread_condattr_setclock a' _ => N.eqb a' a
  | pthread_condattr_destroy a' => N.eqb a' a
  | _ => false
  end.

(** The waits in a trace. *)
Definition is_wait (e : pthread_call) : bool :=
  match e with
  | pthread_cond_wait _ _ => true
  | pthread_cond_timedwait _ _ _ => true
  | pthread_cond_timedwait_monotonic_np _ _ _ => true
  | _ => false
  end.

(** ** The flavors, call by call *)

(** The calls that set up a condition variable at [c] in each flavor; [a] is
    the attribute object of the monotonic-clock flavor. *)
Definition construction_calls (f : flavor) (c a : addr) : list pthread_call :=
  match f with
  | Fallback => [pthread_cond_init c None]
  | MonotonicClock =>
      [pthread_condattr_init a;
       pthread_condattr_setclock a CLOCK_MONOTONIC;
       pthread_cond_init c (Some a);
       pthread_condattr_destroy a]
  end.

(** The timed wait of each flavor. *)
Definition timed_wait_call (f : flavor) (c m : addr) (ts : timespec)
  : pthread_call :=
  match f with
  | Fallback => pthread_cond_timedwait_monotonic_np c m ts
  | MonotonicClock => pthread_cond_timedwait c m ts
  end.

(** ** What the platform promises of a timed wait *)

(** [a] is not later than [b]. *)
Definition ts_le (a b : timespec) : bool :=
  (tv_sec a <? tv_sec b)
  || ((tv_sec a =? tv_sec b) && (tv_nsec a <=? tv_nsec b)).

Section TimedWait.

Variable W : Type.

(** The reading of the monotonic clock in a state, and the status
    [ETIMEDOUT] of <errno.h>. *)
Variable now : W -> timespec.
Variable ETIMEDOUT : Z.

Definition times_out (timed : option (Z * W)) : Prop :=
  exists w' : W, timed = Some (ETIMEDOUT, w').

(** The outcome [timed] of a timed wait with deadline [ts] started in state
    [w], against the outcome [wait] of the plain wait started in the same
    state.  With the deadline not later than the clock, the timed wait
    returns [ETIMEDOUT].  Otherwise, when the plain wait would return before
    the deadline, the timed wait does exactly the same; when the plain wait
    would return at the deadline or later, or never, the timed wait returns
    [ETIMEDOUT]. *)
Definition timed_wait_outcome (ts : timespec) (w : W)
  (wait timed : option (Z * W)) : Prop :=
  if ts_le ts (now w) then times_out timed
  else
    match wait with
    | Some (r, w') =>
        if ts_le ts (now w') then times_out timed else timed = Some (r, w')
    | None => times_out timed
    end.

(** The contract of <pthread.h> for both timed waits on the monotonic
    clock. *)
Definition native_timed_wait_spec (h : Env pthread W) : Prop :=
  forall (c m : addr) (ts : timespec) (w : W),
    timed_wait_outcome ts w (h (pthread_cond_wait c m) w)
      (h (pthread_cond_timedwait c m ts) w)
    /\ timed_wait_outcome ts w (h (pthread_cond_wait c m) w)
         (h (pthread_cond_timedwait_monotonic_np c m ts) w).

End TimedWait.

Arguments times_out {W} ETIMEDOUT timed.
Arguments timed_wait_outcome {W} now ETIMEDOUT ts w wait timed.
Arguments native_timed_wait_spec {W} now ETIMEDOUT h.

(** A native library with a clock, for concrete runs.  The state is the
    clock, in seconds, and the time at which the next notification arrives,
    if one ever does. *)
Module Clocked.

Definition world : Type := (Z * option Z)%type.

Definition now (w : world) : timespec := {| tv_sec := fst w; tv_nsec := 0 |}.

Definition ETIMEDOUT : Z := 110.

Definition wake (w : world) : option (Z * world) :=
  match snd w with
  | Some t => Some (0, (Z.max (fst w) t, None))
  | None => None
  end.

Definition timed (ts : timespec) (w : world) : option (Z * world) :=
  if ts_le ts (now w) then Some (ETIMEDOUT, w)
  else
    match wake w with
    | Some (r, w') =>
        if ts_le ts (now w') then Some (ETIMEDOUT, (tv_sec ts, snd w))
        else Some (r, w')
    | None => Some (ETIMEDOUT, (tv_sec ts, snd w))
    end.

Definition env : Env pthread world :=
  fun e w =>
    match e return option (pthread_ans e * world) with
    | pthread_cond_wait _ _ => wake w
    | pthread_cond_timedwait _ _ ts => timed ts w
    | pthread_cond_timedwait_monotonic_np _ _ ts => timed ts w
    | pthread_mutex_init m attr =>
        Some (Fake.answer (pthread_mutex_init m attr) 0 None, w)
    | pthread_mutex_destroy m =>
        Some (Fake.answer (pthread_mutex_destroy m) 0 None, w)
    | pthread_mutex_lock m =>
        Some (Fake.answer (pthread_mutex_lock m) 0 None, w)
    | pthread_mutex_unlock m =>
        Some (Fake.answer (pthread_mutex_unlock m) 0 None, w)
    | pthread_condattr_init a =>
        Some (Fake.answer (pthread_condattr_init a) 0 None, w)
    | pthread_condattr_setclock a k =>
        Some (Fake.answer (pthread_condattr_setclock a k) 0 None, w)
    | pthread_condattr_destroy a =>
        Some (Fake.answer (pthread_condattr_destroy a) 0 None, w)
    | pthread_cond_init c attr =>
        Some (Fake.answer (pthread_cond_init c attr) 0 None, w)
    | pthread_cond_destroy c =>
        Some (Fake.answer (pthread_cond_destroy c) 0 None, w)
    | pthread_cond_signal c =>
        Some (Fake.answer (pthread_cond_signal c) 0 None, w)
    | pthread_cond_broadcast c =>
        Some (Fake.answer (pthread_cond_broadcast c) 0 None, w)
    | pthread_create attr start arg =>
        Some (Fake.answer (pthread_create attr start arg) 0 None, w)
    | pthread_join t =>
        Some (Fake.answer (pthread_join t) 0 None, w)
    end.

End Clocked.

(** ** Threads sharing one Mutex *)

(** The call names the native mutex at [a]: a mutex call on it, or a wait
    that releases and retakes it. *)
Definition names_mutex (a : addr) (e : pthread_call) : bool :=
  match e with
  | pthread_mutex_init m _ => N.eqb m a
  | pthread_mutex_destroy m => N.eqb m a
  | pthread_mutex_lock m => N.eqb m a
  | pthread_mutex_unlock m => N.eqb m a
  | pthread_cond_wait _ m => N.eqb m a
  | pthread_cond_timedwait _ m _ => N.eqb m a
  | pthread_cond_timedwait_monotonic_np _ m _ => N.eqb m a
  | _ => false
  end.

(** A critical section that leaves the shared mutex to [Lock] and [Unlock]:
    none of its calls names the native mutex at [a]. *)
Inductive quiet (a : addr) : Prog pthread unit -> Prop :=
| quiet_Ret (u : unit) : quiet a (Ret u)
| quiet_Vis (e : pthread_call) (k : pthread_ans e -> Prog pthread unit) :
    names_mutex a e = false ->
    (forall x, quiet a (k x)) ->
    quiet a (Vis (S := pthread) e k).

(** Where a thread that runs [m.Lock(); body; m.Unlock();] is: in [Lock]
    with [p] left of it and [body] still to come, in its critical section
    with [p] left of it, in [Unlock] with [p] left of it, or done. *)
Inductive tstate : Type :=
| Entering (p body : Prog pthread unit)
| Inside (p : Prog pthread unit)
| Leaving (p : Prog pthread unit)
| Finished.

Definition inside (st : tstate) : bool :=
  match st with
  | Inside _ => true
  | _ => false
  end.

(** The thread has come back from the native lock and not yet called the
    native unlock. *)
Definition holds (st : tstate) : bool :=
  match st with
  | Entering (Ret _) _ => true
  | Inside _ => true
  | Leaving (Vis _ _) => true
  | _ => false
  end.

Fixpoint update {X : Type} (l : list X) (i : nat) (x : X) : list X :=
  match l, i with
  | [], _ => []
  | _ :: l', O => x :: l'
  | y :: l', Datatypes.S i' => y :: update l' i' x
  end.

Section Threads.

Variable W : Type.

(** The native library as seen by each thread: thread [i] calling [e] in
    state [w] gets [h i e w]. *)
Variable h : nat -> Env pthread W.

(** The Mutex object the threads share. *)
Variable m : Mutex.t.

(** One step of thread [i]: its next native call if the call returns, or
    the passage from one part of its code to the next.  A thread whose call
    does not return stays where it is. *)
Definition thread_step (i : nat) (st : tstate) (w : W) : tstate * W :=
  match st with
  | Entering (Ret _) body => (Inside body, w)
  | Entering (Vis e k) body =>
      match h i e w with
      | Some (x, w') => (Entering (k x) body, w')
      | None => (st, w)
      end
  | Inside (Ret _) => (Leaving (Mutex.Unlock m), w)
  | Inside (Vis e k) =>
      match h i e w with
      | Some (x, w') => (Inside (k x), w')
      | None => (st, w)
      end
  | Leaving (Ret _) => (Finished, w)
  | Leaving (Vis e k) =>
      match h i e w with
      | Some (x, w') => (Leaving (k x), w')
      | None => (st, w)
      end
  | Finished => (Finished, w)
  end.

(** The threads and the native state; the scheduler picks thread [i]. *)
Definition pool_step (i : nat) (p : list tstate * W) : list tstate * W :=
  match nth_error (fst p) i with
  | None => p
  | Some st =>
      let (st', w') := thread_step i st (snd p) in
      (update (fst p) i st', w')
  end.

(** A schedule is the list of the threads picked, in order. *)
Definition exec (sched : list nat) (p : list tstate * W) : list tstate * W :=
  fold_left (fun q i => pool_step i q) sched p.

(** One thread per critical section, each about to call [m.Lock()]. *)
Definition start (bodies : list (Prog pthread unit)) : list tstate :=
  map (Entering (Mutex.Lock m)) bodies.

(** What <pthread.h> promises of the native mutex at [a], whose holder in a
    state is [owner]: a lock returns only by granting a free mutex to the
    caller, and no call that does not name the mutex changes its holder. *)
Definition native_mutex_spec (owner : W -> option nat) (a : addr) : Prop :=
  (forall (i : nat) (w w' : W) (x : Z),
      h i (pthread_mutex_lock a) w = Some (x, w') ->
      owner w = None /\ owner w' = Some i)
  /\ (forall (i : nat) (e : pthread_call) (w w' : W) (x : pthread_ans e),
        names_mutex a e = false ->
        h i e w = Some (x, w') ->
        owner w' = owner w).

(** The shape of a thread's state along any run from [start]. *)
Definition wf (a : addr) (st : tstate) : Prop :=
  match st with
  | Entering (Ret _) body => quiet a body
  | Entering (Vis e k) body =>
      e = pthread_mutex_lock a /\ (forall x, k x = Ret tt) /\ quiet a body
  | Inside p => quiet a p
  | Leaving (Ret _) => True
  | Leaving (Vis e k) =>
      e = pthread_mutex_unlock a /\ (forall x, k x = Ret tt)
  | Finished => True
  end.

(** Every thread is where a run from [start] can bring it, and a thread that
    has the lock call behind it and the unlock call ahead is the holder of
    the native mutex. *)
Definition holder_invariant (owner : W -> option nat) (p : list tstate * W)
  : Prop :=
  Forall (wf (Mutex.mutex_ m)) (fst p)
  /\ forall (i : nat) (st : tstate),
      nth_error (fst p) i = Some st ->
      holds st = true ->
      owner (snd p) = Some i.

End Threads.

Arguments holder_invariant {W} m owner p.
Arguments thread_step {W} h m i st w.
Arguments pool_step {W} h m i p.
Arguments exec {W} h m sched p.
Arguments native_mutex_spec {W} h owner a.

(** A native mutex table, for concrete runs: the state gives the holder of
    each native mutex.  A lock of a free mutex grants it, a lock of a held
    one does not return; an unlock by the holder frees it, any other unlock
    fails with [EPERM]; every other call succeeds and changes nothing. *)
Module Table.

Definition world : Type := addr -> option nat.

Definition free : world := fun _ => None.

Definition set (w : world) (a : addr) (o : option nat) : world :=
  fun b => if N.eqb b a then o else w b.

Definition EPERM : Z := 1.

Definition env (i : nat) : Env pthread world :=
  fun e w =>
    match e return option (pthread_ans e * world) with
    | pthread_mutex_lock a =>
        match w a with
        | None => Some (0, set w a (Some i))
        | Some _ => None
        end
    | pthread_mutex_unlock a =>
        match w a with
        | Some j => if Nat.eqb j i then Some (0, set w a None)
                    else Some (EPERM, w)
        | None => Some (EPERM, w)
        end
    | pthread_mutex_init a attr =>
        Some (Fake.answer (pthread_mutex_init a attr) 0 None, w)
    | pthread_mutex_destroy a =>
        Some (Fake.answer (pthread_mutex_destroy a) 0 None, w)
    | pthread_condattr_init a =>
        Some (Fake.answer (pthread_condattr_init a) 0 None, w)
    | pthread_condattr_setclock a k =>
        Some (Fake.answer (pthread_condattr_setclock a k) 0 None, w)
    | pthread_condattr_destroy a =>
        Some (Fake.answer (pthread_condattr_destroy a) 0 None, w)
    | pthread_cond_init c attr =>
        Some (Fake.answer (pthread_cond_init c attr) 0 None, w)
    | pthread_cond_destroy c =>
        Some (Fake.answer (pthread_cond_destroy c) 0 None, w)
    | pthread_cond_signal c =>
        Some (Fake.answer (pthread_cond_signal c) 0 None, w)
    | pthread_cond_broadcast c =>
        Some (Fake.answer (pthread_cond_broadcast c) 0 None, w)
    | pthread_cond_wait c a =>
        Some (Fake.answer (pthread_cond_wait c a) 0 None, w)
    | pthread_cond_timedwait c a ts =>
        Some (Fake.answer (pthread_cond_timedwait c a ts) 0 None, w)
    | pthread_cond_timedwait_monotonic_np c a ts =>
        Some (Fake.answer (pthread_cond_timedwait_monotonic_np c a ts) 0 None, w)
    | pthread_create attr start arg =>
        Some (Fake.answer (pthread_create attr start arg) 0 None, w)
    | pthread_join t =>
        Some (Fake.answer (pthread_join t) 0 None, w)
    end.

End Table.

(** * Properties *)

(** ** Running programs *)

Section Run.

Context {S : Sig} {W : Type} (h : Env S W).

Lemma run_call (e : op S) (w : W) :
  run h (call e) w = ([e], h e w).
Proof.
  unfold call. simpl. destruct (h e w) as [[x w']|]; reflexivity.
Qed.

Lemma run_bind {A B : Type} (p : Prog S A) (f : A -> Prog S B) (w : W) :
  run h (bind p f) w =
  match run h p w with
  | (t, None) => (t, None)
  | (t, Some (a, w')) => let (t', r) := run h (f a) w' in (t ++ t', r)
  end.
Proof.
  revert w. induction p as [a | e k IH]; intros w; simpl.
  - destruct (run h (f a) w); reflexivity.
  - destruct (h e w) as [[x w']|]; [|reflexivity].
    rewrite IH. destruct (run h (k x) w') as [t [[a w'']|]]; [|reflexivity].
    destruct (run h (f a) w''); reflexivity.
Qed.

(** A call used as a statement, followed by a return. *)
Lemma run_call_Ret {A : Type} (e : op S) (a : A) (w : W) :
  run h (call e;; Ret a) w =
  ([e], option_map (fun xw => (a, snd xw)) (h e w)).
Proof.
  rewrite run_bind, run_call.
  destruct (h e w) as [[x w']|]; reflexivity.
Qed.

Lemma trace_bind_returns {A B : Type} (p : Prog S A) (f : A -> Prog S B)
  (w w' : W) (a : A) :
  result h p w = Some (a, w') ->
  trace h (bind p f) w = trace h p w ++ trace h (f a) w'.
Proof.
  unfold result, trace. intros H. rewrite run_bind.
  destruct (run h p w) as [t r]. simpl in H. subst r.
  destruct (run h (f a) w'); reflexivity.
Qed.

Lemma trace_bind_blocks {A B : Type} (p : Prog S A) (f : A -> Prog S B)
  (w : W) :
  result h p w = None ->
  run h (bind p f) w = (trace h p w, None).
Proof.
  unfold result, trace. intros H. rewrite run_bind.
  destruct (run h p w) as [t r]. simpl in H. subst r. reflexivity.
Qed.

End Run.

(** ** Programs that ignore statuses *)

Lemma status_blind_run {W A : Type} (h1 h2 : Env pthread W)
  (p : Prog pthread A) :
  status_blind p ->
  same_but_status h1 h2 ->
  forall w : W, run h1 p w = run h2 p w.
Proof.
  intros Hp Hh. induction Hp as [a | c k Hk _ IH]; intros w.
  - reflexivity.
  - simpl. specialize (Hh c w).
    destruct (h1 c w) as [[x1 w1]|], (h2 c w) as [[x2 w2]|];
      try contradiction; [|reflexivity].
    destruct Hh as [Hst ->].
    rewrite (Hk x1 x2 Hst), IH. reflexivity.
Qed.

(** A call used as a statement is blind to its status. *)
Lemma status_blind_statement {A : Type} (c : pthread_call)
  (p : Prog pthread A) :
  status_blind p -> status_blind (call c;; p).
Proof.
  intros Hp. unfold call. simpl. apply blind_Vis; intros; [reflexivity | exact Hp].
Qed.

Create HintDb blind.
#[local] Hint Resolve status_blind_statement : blind.
#[local] Hint Constructors status_blind : blind.

Lemma Mutex_ctor_blind (this : addr) : status_blind (Mutex.ctor this).
Proof. unfold Mutex.ctor. auto with blind. Qed.

Lemma Mutex_Lock_blind (m : Mutex.t) : status_blind (Mutex.Lock m).
Proof. unfold Mutex.Lock. auto with blind. Qed.

Lemma Mutex_Unlock_blind (m : Mutex.t) : status_blind (Mutex.Unlock m).
Proof. unfold Mutex.Unlock. auto with blind. Qed.

Lemma ConditionVariable_ctor_blind (b : bool) (this attr : addr)
  (mutex : Mutex.t) :
  status_blind (ConditionVariable.ctor b this attr mutex).
Proof.
  unfold ConditionVariable.ctor. destruct b; auto 10 with blind.
Qed.

Lemma ScopedThread_ctor_blind (thread0 : pthread_t) (start : fnptr)
  (arg : addr) :
  status_blind (ScopedThread.ctor thread0 start arg).
Proof.
  unfold ScopedThread.ctor, call. simpl. apply blind_Vis.
  - intros x y Hxy. simpl in Hxy. rewrite Hxy. reflexivity.
  - intros x. apply blind_Ret.
Qed.

(** The two scripted libraries used below: one returns the scripted statuses,
    the other fails every call with [EAGAIN]. *)
Lemma Fake_same_but_status :
  same_but_status (Fake.env (fun r => r)) (Fake.env (fun _ => Fake.EAGAIN)).
Proof.
  intros c [| [r o] w]; simpl; [exact I|].
  split; [|reflexivity]. destruct c; reflexivity.
Qed.

(** ** ConditionVariable: statuses are passed on *)

(** Closes a goal about the run of a single call. *)
Ltac by_call :=
  match goal with
  | |- run ?h (call ?e) ?w = _ => exact (run_call h e w)
  end.

(** C2. Each of NotifyOne, NotifyAll, Wait and WaitUntil issues one native
    call (signal, broadcast, wait, and the timed wait of the configured
    flavor on the converted time point) and its outcome is that call's
    outcome: it returns when the call returns, with the call's status as it
    is, and leaves the state the call left. *)
Theorem C2_signal_operations_return_native_status :
  forall (sdk_before_L : bool) (MonotonicTimePoint : Type)
         (ToTimespec : MonotonicTimePoint -> timespec)
         (W : Type) (h : Env pthread W) (w : W)
         (cv : ConditionVariable.t) (tp : MonotonicTimePoint),
    let c := ConditionVariable.cond_ cv in
    let m := Mutex.mutex_ (ConditionVariable.mutex_ cv) in
    run h (ConditionVariable.NotifyOne cv) w
      = ([pthread_cond_signal c], h (pthread_cond_signal c) w)
    /\ run h (ConditionVariable.NotifyAll cv) w
      = ([pthread_cond_broadcast c], h (pthread_cond_broadcast c) w)
    /\ run h (ConditionVariable.Wait cv) w
      = ([pthread_cond_wait c m], h (pthread_cond_wait c m) w)
    /\ run h (ConditionVariable.WaitUntil sdk_before_L ToTimespec cv tp) w
      = if sdk_before_L
        then ([pthread_cond_timedwait_monotonic_np c m (ToTimespec tp)],
              h (pthread_cond_timedwait_monotonic_np c m (ToTimespec tp)) w)
        else ([pthread_cond_timedwait c m (ToTimespec tp)],
              h (pthread_cond_timedwait c m (ToTimespec tp)) w).
Proof.
  intros b T ToTs W h w cv tp c m.
  unfold ConditionVariable.NotifyOne, ConditionVariable.NotifyAll,
    ConditionVariable.Wait, ConditionVariable.WaitUntil, Mutex.GetMutex.
  repeat split; try by_call.
  destruct b; by_call.
Qed.

(** Closes a goal about the run of a call used as a statement. *)
Ltac by_statement :=
  match goal with
  | |- run ?h (bind (call ?e) (fun _ => Ret ?a)) ?w = _ =>
      exact (run_call_Ret h e a w)
  end.

(** ** Mutex: statuses are dropped *)

(** C9. Mutex::Lock and Mutex::Unlock each issue the one native call on the
    object's mutex and return nothing: when the call returns their result is
    the unit value, with no trace of the status, so that two native libraries
    which differ only in the statuses they return (one reporting success,
    the other an error) give the caller the very same run. *)
Theorem C9_Mutex_Lock_Unlock_drop_status :
  forall (W : Type) (h : Env pthread W) (m : Mutex.t) (w : W),
    run h (Mutex.Lock m) w
      = ([pthread_mutex_lock (Mutex.mutex_ m)],
         option_map (fun xw => (tt, snd xw))
                    (h (pthread_mutex_lock (Mutex.mutex_ m)) w))
    /\ run h (Mutex.Unlock m) w
      = ([pthread_mutex_unlock (Mutex.mutex_ m)],
         option_map (fun xw => (tt, snd xw))
                    (h (pthread_mutex_unlock (Mutex.mutex_ m)) w))
    /\ forall h' : Env pthread W,
        same_but_status h h' ->
        run h (Mutex.Lock m) w = run h' (Mutex.Lock m) w
        /\ run h (Mutex.Unlock m) w = run h' (Mutex.Unlock m) w.
Proof.
  intros W h m w. unfold Mutex.Lock, Mutex.Unlock.
  split; [by_statement|]. split; [by_statement|].
  intros h' Hh. split.
  - apply status_blind_run; [apply Mutex_Lock_blind | exact Hh].
  - apply status_blind_run; [apply Mutex_Unlock_blind | exact Hh].
Qed.

(** A library whose lock succeeds and one whose lock fails with [EAGAIN]:
    the caller of Lock sees the same. *)
Lemma C9_witness :
  same_but_status (Fake.env (fun r => r)) (Fake.env (fun _ => Fake.EAGAIN))
  /\ status (pthread_mutex_lock 5%N)
       (Fake.answer (pthread_mutex_lock 5%N) 0 None)
     <> status (pthread_mutex_lock 5%N)
       (Fake.answer (pthread_mutex_lock 5%N) Fake.EAGAIN None)
  /\ run (Fake.env (fun r => r)) (Mutex.Lock {| Mutex.mutex_ := 5%N |})
         [(0, None)]
     = run (Fake.env (fun _ => Fake.EAGAIN)) (Mutex.Lock {| Mutex.mutex_ := 5%N |})
         [(0, None)].
Proof.
  split; [exact Fake_same_but_status|].
  split; [discriminate|].
  exact (proj1 (proj2 (proj2
           (C9_Mutex_Lock_Unlock_drop_status _ (Fake.env (fun r => r))
              {| Mutex.mutex_ := 5%N |} [(0, None)]))
           (Fake.env (fun _ => Fake.EAGAIN)) Fake_same_but_status)).
Defined.

(** ** Constructors: statuses are dropped *)

(** C4. The constructors of Mutex, ConditionVariable (in either build
    flavor) and ScopedThread do not look at the status of the native calls
    they make: under two native libraries that differ only in the statuses
    they return, each constructor issues the same calls and hands the caller
    the same object in the same state.  A failed initialisation or thread
    creation is therefore not reported. *)
Theorem C4_constructors_drop_creation_status :
  forall (W : Type) (h1 h2 : Env pthread W),
    same_but_status h1 h2 ->
    forall (w : W) (sdk_before_L : bool) (this attr : addr) (mutex : Mutex.t)
           (thread0 : pthread_t) (start : fnptr) (arg : addr),
      run h1 (Mutex.ctor this) w = run h2 (Mutex.ctor this) w
      /\ run h1 (ConditionVariable.ctor sdk_before_L this attr mutex) w
         = run h2 (ConditionVariable.ctor sdk_before_L this attr mutex) w
      /\ run h1 (ScopedThread.ctor thread0 start arg) w
         = run h2 (ScopedThread.ctor thread0 start arg) w.
Proof.
  intros W h1 h2 Hh w b this attr mutex thread0 start arg.
  repeat split; apply status_blind_run; try exact Hh.
  - apply Mutex_ctor_blind.
  - apply ConditionVariable_ctor_blind.
  - apply ScopedThread_ctor_blind.
Qed.

(** With every native call failing, the Mutex constructor still returns its
    object, the same as when the initialisation succeeds. *)
Lemma C4_witness :
  same_but_status (Fake.env (fun r => r)) (Fake.env (fun _ => Fake.EAGAIN))
  /\ run (Fake.env (fun _ => Fake.EAGAIN)) (Mutex.ctor 5%N) [(0, None)]
     = ([pthread_mutex_init 5%N None], Some ({| Mutex.mutex_ := 5%N |}, [])).
Proof.
  split; [exact Fake_same_but_status|].
  rewrite <- (proj1 (C4_constructors_drop_creation_status _ _ _
                       Fake_same_but_status [(0, None)] true 5%N 6%N
                       {| Mutex.mutex_ := 5%N |} 0%N 0%N 0%N)).
  reflexivity.
Defined.

(** What each constructor returns when its calls return, whatever their
    statuses. *)
Lemma Mutex_ctor_run {W : Type} (h : Env pthread W) (this : addr) (w : W) :
  run h (Mutex.ctor this) w
  = ([pthread_mutex_init this None],
     option_map (fun xw => ({| Mutex.mutex_ := this |}, snd xw))
                (h (pthread_mutex_init this None) w)).
Proof. unfold Mutex.ctor. by_statement. Qed.

Lemma ConditionVariable_ctor_fallback_run {W : Type} (h : Env pthread W)
  (this attr : addr) (mutex : Mutex.t) (w : W) :
  run h (ConditionVariable.ctor true this attr mutex) w
  = ([pthread_cond_init this None],
     option_map
       (fun xw => ({| ConditionVariable.mutex_ := mutex;
                      ConditionVariable.cond_ := this |}, snd xw))
       (h (pthread_cond_init this None) w)).
Proof. unfold ConditionVariable.ctor. by_statement. Qed.

Lemma ConditionVariable_ctor_monotonic_run {W : Type} (h : Env pthread W)
  (this attr : addr) (mutex : Mutex.t) (w w1 w2 w3 w4 : W) (r1 r2 r3 r4 : Z) :
  h (pthread_condattr_init attr) w = Some (r1, w1) ->
  h (pthread_condattr_setclock attr CLOCK_MONOTONIC) w1 = Some (r2, w2) ->
  h (pthread_cond_init this (Some attr)) w2 = Some (r3, w3) ->
  h (pthread_condattr_destroy attr) w3 = Some (r4, w4) ->
  run h (ConditionVariable.ctor false this attr mutex) w
  = ([pthread_condattr_init attr;
      pthread_condattr_setclock attr CLOCK_MONOTONIC;
      pthread_cond_init this (Some attr);
      pthread_condattr_destroy attr],
     Some ({| ConditionVariable.mutex_ := mutex;
              ConditionVariable.cond_ := this |}, w4)).
Proof.
  intros H1 H2 H3 H4. unfold ConditionVariable.ctor, call. simpl.
  rewrite H1. simpl. rewrite H2. simpl. rewrite H3. simpl. rewrite H4.
  reflexivity.
Qed.

(** ** LockGuard<pthread_mutex_t>: release only what was acquired *)

Lemma raw_guard_dtor_run {W : Type} (h : Env pthread W)
  (g : LockGuard_pthread_mutex_t.t) (w : W) :
  run h (LockGuard_pthread_mutex_t.dtor g) w
  = if LockGuard_pthread_mutex_t.unlock_ g
    then ([pthread_mutex_unlock (LockGuard_pthread_mutex_t.mutex_ g)],
          option_map (fun xw => (tt, snd xw))
            (h (pthread_mutex_unlock (LockGuard_pthread_mutex_t.mutex_ g)) w))
    else ([], Some (tt, w)).
Proof.
  unfold LockGuard_pthread_mutex_t.dtor.
  destruct (LockGuard_pthread_mutex_t.unlock_ g); [by_statement | reflexivity].
Qed.

(** C1. When the native acquire call of the constructor returns status [r],
    the guard built records [unlock_ = (r == 0)] for the mutex it was given,
    and its destructor, run in any state, issues the native release call on
    that mutex exactly when [r] is [0]; when [r] is not [0] the destructor
    issues no call at all. *)
Theorem C1_raw_guard_releases_iff_acquired :
  forall (W : Type) (h : Env pthread W) (mutex : addr) (w w' : W) (r : Z),
    h (pthread_mutex_lock mutex) w = Some (r, w') ->
    let g := {| LockGuard_pthread_mutex_t.mutex_ := mutex;
                LockGuard_pthread_mutex_t.unlock_ := (r =? 0) |} in
    run h (LockGuard_pthread_mutex_t.ctor mutex) w
      = ([pthread_mutex_lock mutex], Some (g, w'))
    /\ forall w2 : W,
        trace h (LockGuard_pthread_mutex_t.dtor g) w2
          = (if r =? 0 then [pthread_mutex_unlock mutex] else [])
        /\ (In (pthread_mutex_unlock mutex)
               (trace h (LockGuard_pthread_mutex_t.dtor g) w2) <-> r = 0)
        /\ (r <> 0 -> trace h (LockGuard_pthread_mutex_t.dtor g) w2 = []).
Proof.
  intros W h mutex w w' r H g. split.
  - unfold LockGuard_pthread_mutex_t.ctor, call. simpl. rewrite H. reflexivity.
  - intros w2.
    assert (Ht : trace h (LockGuard_pthread_mutex_t.dtor g) w2
                 = if r =? 0 then [pthread_mutex_unlock mutex] else []).
    { unfold trace. rewrite raw_guard_dtor_run. subst g. simpl.
      destruct (r =? 0); reflexivity. }
    rewrite Ht. split; [reflexivity|]. split.
    + destruct (r =? 0) eqn:E.
      * apply Z.eqb_eq in E. split; [intros _; exact E | intros _; left; reflexivity].
      * apply Z.eqb_neq in E. split; [intros [] | intros E'; contradiction].
    + intros Hr. apply Z.eqb_neq in Hr. rewrite Hr. reflexivity.
Qed.

(** The native lock fails with [EBUSY]: the destructor makes no call. *)
Lemma C1_witness :
  Fake.env (fun r => r) (pthread_mutex_lock 5%N) [(Fake.EBUSY, None)]
    = Some (Fake.EBUSY, [])
  /\ trace (Fake.env (fun r => r))
       (LockGuard_pthread_mutex_t.dtor
          {| LockGuard_pthread_mutex_t.mutex_ := 5%N;
             LockGuard_pthread_mutex_t.unlock_ := (Fake.EBUSY =? 0) |})
       [(0, None)]
     = [].
Proof.
  split; [reflexivity|].
  refine (proj2 (proj2 (proj2
            (C1_raw_guard_releases_iff_acquired _ (Fake.env (fun r => r))
               5%N [(Fake.EBUSY, None)] [] Fake.EBUSY eq_refl)
            [(0, None)])) _).
  discriminate.
Defined.

(** The whole block around a raw-handle guard, when the acquire call and
    the block return. *)
Lemma raw_scope_trace {W A : Type} (h : Env pthread W) (mutex : addr)
  (body : Prog pthread A) (w w1 w2 : W) (r : Z) (a : A) :
  h (pthread_mutex_lock mutex) w = Some (r, w1) ->
  result h body w1 = Some (a, w2) ->
  trace h (raw_scope mutex body) w
  = pthread_mutex_lock mutex :: trace h body w1
      ++ (if r =? 0 then [pthread_mutex_unlock mutex] else []).
Proof.
  intros Hl Hb. unfold raw_scope.
  set (g := {| LockGuard_pthread_mutex_t.mutex_ := mutex;
               LockGuard_pthread_mutex_t.unlock_ := (r =? 0) |}).
  assert (Hc : run h (LockGuard_pthread_mutex_t.ctor mutex) w
               = ([pthread_mutex_lock mutex], Some (g, w1))).
  { unfold LockGuard_pthread_mutex_t.ctor, call. simpl. rewrite Hl. reflexivity. }
  rewrite (trace_bind_returns h _ _ w w1 g)
    by (unfold result; rewrite Hc; reflexivity).
  unfold trace at 1. rewrite Hc. simpl. f_equal.
  rewrite (trace_bind_returns h _ _ w1 w2 a Hb). f_equal.
  unfold trace. rewrite run_bind, raw_guard_dtor_run. simpl.
  destruct (r =? 0); [|reflexivity].
  destruct (h (pthread_mutex_unlock mutex) w2) as [[x w3]|]; reflexivity.
Qed.

(** ** LockGuard<M>: one acquire, one release *)

Section GenericGuard.

Context {M LockRet UnlockRet W : Type}.
Variable h : Env (LockGuard.iface M LockRet UnlockRet) W.

Lemma guard_ctor_run (mutex : M) (w : W) :
  run h (LockGuard.ctor LockRet UnlockRet mutex) w
  = ([LockGuard.Lock mutex],
     option_map (fun xw => ({| LockGuard.mutex_ := mutex |}, snd xw))
                (h (LockGuard.Lock mutex) w)).
Proof.
  unfold LockGuard.ctor. simpl.
  exact (run_call_Ret h (LockGuard.Lock mutex) _ w).
Qed.

Lemma guard_dtor_run (g : LockGuard.t M) (w : W) :
  run h (LockGuard.dtor LockRet UnlockRet g) w
  = ([LockGuard.Unlock (LockGuard.mutex_ g)],
     option_map (fun xw => (tt, snd xw))
                (h (LockGuard.Unlock (LockGuard.mutex_ g)) w)).
Proof.
  unfold LockGuard.dtor.
  exact (run_call_Ret h (LockGuard.Unlock (LockGuard.mutex_ g)) tt w).
Qed.

Lemma guard_scope_run {A : Type} (mutex : M) (body : Prog _ A)
  (x : LockRet) (w w1 w2 : W) (a : A) :
  h (LockGuard.Lock mutex) w = Some (x, w1) ->
  result h body w1 = Some (a, w2) ->
  run h (LockGuard.scope LockRet UnlockRet mutex body) w
  = (LockGuard.Lock mutex :: trace h body w1 ++ [LockGuard.Unlock mutex],
     option_map (fun yw => (a, snd yw)) (h (LockGuard.Unlock mutex) w2)).
Proof.
  intros Hl Hb. unfold LockGuard.scope.
  rewrite run_bind, guard_ctor_run, Hl. cbn [option_map snd].
  rewrite run_bind. unfold result, trace in *.
  destruct (run h body w1) as [tb rb]. cbn [fst snd] in *. subst rb.
  rewrite run_bind, guard_dtor_run. cbn [LockGuard.mutex_].
  destruct (h (LockGuard.Unlock mutex) w2) as [[y w3]|]; reflexivity.
Qed.

End GenericGuard.

(** C3. For every lock type M, whatever its Lock and Unlock do and return:
    the guard's constructor makes exactly one call, Lock on the lock it was
    given, and returns a guard referring to that lock when the call returns;
    the destructor of any guard makes exactly one call, Unlock on the guard's
    lock, with no condition; and a block that declares a guard and then runs
    to an outcome makes the one Lock first and the one Unlock last, so the
    trace of the block holds exactly one release more than the block's own
    code made. *)
Theorem C3_generic_guard_acquires_once_releases_once :
  forall (M LockRet UnlockRet W : Type)
         (h : Env (LockGuard.iface M LockRet UnlockRet) W)
         (mutex : M) (w : W),
    run h (LockGuard.ctor LockRet UnlockRet mutex) w
      = ([LockGuard.Lock mutex],
         option_map (fun xw => ({| LockGuard.mutex_ := mutex |}, snd xw))
                    (h (LockGuard.Lock mutex) w))
    /\ (forall (g : LockGuard.t M) (w' : W),
          run h (LockGuard.dtor LockRet UnlockRet g) w'
          = ([LockGuard.Unlock (LockGuard.mutex_ g)],
             option_map (fun xw => (tt, snd xw))
                        (h (LockGuard.Unlock (LockGuard.mutex_ g)) w')))
    /\ (forall (A : Type) (body : Prog _ A) (x : LockRet) (w1 w2 : W) (a : A),
          h (LockGuard.Lock mutex) w = Some (x, w1) ->
          result h body w1 = Some (a, w2) ->
          let t := trace h (LockGuard.scope LockRet UnlockRet mutex body) w in
          t = LockGuard.Lock mutex :: trace h body w1
                ++ [LockGuard.Unlock mutex]
          /\ result h (LockGuard.scope LockRet UnlockRet mutex body) w
             = option_map (fun yw => (a, snd yw))
                          (h (LockGuard.Unlock mutex) w2)
          /\ length (filter LockGuard.is_Unlock t)
             = S (length (filter LockGuard.is_Unlock (trace h body w1)))
          /\ length (filter LockGuard.is_Lock t)
             = S (length (filter LockGuard.is_Lock (trace h body w1)))).
Proof.
  intros M LR UR W h mutex w.
  split; [apply guard_ctor_run|]. split; [apply guard_dtor_run|].
  intros A body x w1 w2 a Hl Hb t.
  assert (Hr := guard_scope_run h mutex body x w w1 w2 a Hl Hb).
  assert (Ht : t = LockGuard.Lock mutex :: trace h body w1
                     ++ [LockGuard.Unlock mutex]).
  { subst t. unfold trace at 1. rewrite Hr. reflexivity. }
  split; [exact Ht|]. split; [unfold result; rewrite Hr; reflexivity|].
  rewrite Ht. unfold LockGuard.is_Lock. simpl.
  rewrite !filter_app, !length_app. simpl. split; lia.
Qed.

(** An instrumented lock whose Lock reports failure: the guard around an
    empty block still calls Lock once and Unlock once. *)
Lemma C3_witness :
  Fake.counting (LockGuard.Lock tt) (0%nat, 0%nat) = Some (false, (1%nat, 0%nat))
  /\ result Fake.counting (Ret tt) (1%nat, 0%nat) = Some (tt, (1%nat, 0%nat))
  /\ run Fake.counting (LockGuard.scope bool unit tt (Ret tt)) (0%nat, 0%nat)
     = ([LockGuard.Lock tt; LockGuard.Unlock tt], Some (tt, (1%nat, 1%nat))).
Proof.
  split; [reflexivity|]. split; [reflexivity|].
  destruct (proj2 (proj2
              (C3_generic_guard_acquires_once_releases_once
                 unit bool unit _ Fake.counting tt (0%nat, 0%nat)))
              unit (Ret tt) false (1%nat, 0%nat) (1%nat, 0%nat) tt
              eq_refl eq_refl) as [Ht [Hr _]].
  unfold trace, result in Ht, Hr.
  destruct (run Fake.counting (LockGuard.scope bool unit tt (Ret tt))
              (0%nat, 0%nat)) as [t r].
  simpl in Ht, Hr. rewrite Ht, Hr. reflexivity.
Defined.

(** LockGuard<Mutex>: the template's calls are the native lock and unlock on
    the Mutex's own native mutex. *)
Lemma guard_of_Mutex_run {W : Type} (h : Env pthread W) (m : Mutex.t)
  (w w1 : W) (r : Z) :
  h (pthread_mutex_lock (Mutex.mutex_ m)) w = Some (r, w1) ->
  run h (interp LockGuard.Mutex_methods
           (LockGuard.scope unit unit m (Ret tt))) w
  = ([pthread_mutex_lock (Mutex.mutex_ m);
      pthread_mutex_unlock (Mutex.mutex_ m)],
     option_map (fun xw => (tt, snd xw))
                (h (pthread_mutex_unlock (Mutex.mutex_ m)) w1)).
Proof.
  intros Hl. simpl. rewrite Hl. simpl.
  destruct (h (pthread_mutex_unlock (Mutex.mutex_ m)) w1) as [[x w2]|];
    reflexivity.
Qed.

(** ** ConditionVariable: the flavor is a build-time choice *)

(** Splits on the answers of the native calls met while running. *)
Ltac split_answers h :=
  repeat match goal with
    | |- context [match h ?c ?w with _ => _ end] =>
        destruct (h c w) as [[? ?]|]; simpl
    end.

(** ** ScopedThread: create at construction, join at destruction *)

Lemma ScopedThread_ctor_run {W : Type} (h : Env pthread W)
  (thread0 : pthread_t) (start : fnptr) (arg : addr) (w : W) :
  run h (ScopedThread.ctor thread0 start arg) w
  = ([pthread_create None start arg],
     option_map
       (fun xw => ({| ScopedThread.thread_ :=
                        match snd (fst xw) with
                        | Some th => th
                        | None => thread0
                        end |}, snd xw))
       (h (pthread_create None start arg) w)).
Proof.
  unfold ScopedThread.ctor, call. simpl.
  destruct (h (pthread_create None start arg) w) as [[x w1]|]; reflexivity.
Qed.

Lemma ScopedThread_dtor_run {W : Type} (h : Env pthread W)
  (s : ScopedThread.t) (w : W) :
  run h (ScopedThread.dtor s) w
  = ([pthread_join (ScopedThread.thread_ s)],
     option_map (fun xw => (tt, snd xw))
                (h (pthread_join (ScopedThread.thread_ s)) w)).
Proof. unfold ScopedThread.dtor. by_statement. Qed.

Lemma ScopedThread_lifetime_run {W : Type} (h : Env pthread W)
  (thread0 : pthread_t) (start : fnptr) (arg : addr) (w w1 : W)
  (r : Z) (o : option pthread_t) :
  h (pthread_create None start arg) w = Some ((r, o), w1) ->
  let th := match o with Some th => th | None => thread0 end in
  run h (ScopedThread_lifetime thread0 start arg) w
  = ([pthread_create None start arg; pthread_join th],
     option_map (fun xw => (tt, snd xw)) (h (pthread_join th) w1)).
Proof.
  intros Hc th. unfold ScopedThread_lifetime.
  rewrite run_bind, ScopedThread_ctor_run, Hc. cbn [option_map fst snd].
  rewrite ScopedThread_dtor_run. reflexivity.
Qed.

(** C7. The constructor makes exactly one native call, the creation of a
    thread with default attributes, the given entry function and the given
    argument, and returns as soon as that call returns, keeping the
    identifier the call stored.  The destructor makes exactly one native call,
    the join of the kept identifier; it returns only when the join returns
    and its result does not contain the value the join stored.  Over the
    object's life the native calls are that creation followed by that join
    and nothing else. *)
Theorem C7_scoped_thread_creates_then_joins :
  forall (W : Type) (h : Env pthread W) (w : W)
         (thread0 : pthread_t) (start : fnptr) (arg : addr),
    run h (ScopedThread.ctor thread0 start arg) w
      = ([pthread_create None start arg],
         option_map
           (fun xw => ({| ScopedThread.thread_ :=
                            match snd (fst xw) with
                            | Some th => th
                            | None => thread0
                            end |}, snd xw))
           (h (pthread_create None start arg) w))
    /\ (forall (s : ScopedThread.t) (w' : W),
          run h (ScopedThread.dtor s) w'
          = ([pthread_join (ScopedThread.thread_ s)],
             option_map (fun xw => (tt, snd xw))
                        (h (pthread_join (ScopedThread.thread_ s)) w')))
    /\ (forall (r : Z) (th : pthread_t) (w1 : W),
          h (pthread_create None start arg) w = Some ((r, Some th), w1) ->
          run h (ScopedThread_lifetime thread0 start arg) w
          = ([pthread_create None start arg; pthread_join th],
             option_map (fun xw => (tt, snd xw)) (h (pthread_join th) w1))).
Proof.
  intros W h w thread0 start arg.
  split; [apply ScopedThread_ctor_run|].
  split; [intros s w'; apply ScopedThread_dtor_run|].
  intros r th w1 Hc.
  exact (ScopedThread_lifetime_run h thread0 start arg w w1 r (Some th) Hc).
Qed.

(** The creation stores thread 9, the join stores the value 77: the object's
    life is the creation and the join of thread 9, and the value is gone. *)
Lemma C7_witness :
  Fake.env (fun r => r) (pthread_create None 3%N 4%N)
    [(0, Some 9%N); (0, Some 77%N)]
    = Some ((0, Some 9%N), [(0, Some 77%N)])
  /\ run (Fake.env (fun r => r)) (ScopedThread_lifetime 0%N 3%N 4%N)
       [(0, Some 9%N); (0, Some 77%N)]
     = ([pthread_create None 3%N 4%N; pthread_join 9%N], Some (tt, [])).
Proof.
  split; [reflexivity|].
  exact (proj2 (proj2
           (C7_scoped_thread_creates_then_joins _ (Fake.env (fun r => r))
              [(0, Some 9%N); (0, Some 77%N)] 0%N 3%N 4%N))
           0 9%N [(0, Some 77%N)] eq_refl).
Defined.

(** C10. The destructor of any ScopedThread object issues the native join
    on the object's identifier, with no condition.  In particular, when the
    creation call of the constructor returns a non-zero status and stores
    nothing, the object's identifier is what its storage held before the
    construction, and the destruction joins that. *)
Theorem C10_scoped_thread_joins_unconditionally :
  forall (W : Type) (h : Env pthread W) (w : W)
         (thread0 : pthread_t) (start : fnptr) (arg : addr),
    (forall (s : ScopedThread.t) (w' : W),
        trace h (ScopedThread.dtor s) w'
        = [pthread_join (ScopedThread.thread_ s)])
    /\ (forall (r : Z) (w1 : W),
          r <> 0 ->
          h (pthread_create None start arg) w = Some ((r, None), w1) ->
          result h (ScopedThread.ctor thread0 start arg) w
            = Some ({| ScopedThread.thread_ := thread0 |}, w1)
          /\ trace h (ScopedThread_lifetime thread0 start arg) w
             = [pthread_create None start arg; pthread_join thread0]).
Proof.
  intros W h w thread0 start arg. split.
  - intros s w'. unfold trace. rewrite ScopedThread_dtor_run. reflexivity.
  - intros r w1 _ Hc. split.
    + unfold result. rewrite ScopedThread_ctor_run, Hc. reflexivity.
    + unfold trace.
      rewrite (ScopedThread_lifetime_run h thread0 start arg w w1 r None Hc).
      reflexivity.
Qed.

(** The creation fails with [EAGAIN] and stores nothing; the storage held
    42: the destruction joins 42. *)
Lemma C10_witness :
  Fake.EAGAIN <> 0
  /\ Fake.env (fun r => r) (pthread_create None 3%N 4%N) [(Fake.EAGAIN, None)]
     = Some ((Fake.EAGAIN, None), [])
  /\ trace (Fake.env (fun r => r)) (ScopedThread_lifetime 42%N 3%N 4%N)
       [(Fake.EAGAIN, None)]
     = [pthread_create None 3%N 4%N; pthread_join 42%N].
Proof.
  split; [discriminate|]. split; [reflexivity|].
  refine (proj2 (proj2
            (C10_scoped_thread_joins_unconditionally _ (Fake.env (fun r => r))
               [(Fake.EAGAIN, None)] 42%N 3%N 4%N)
            Fake.EAGAIN [] _ eq_refl)).
  discriminate.
Defined.

(** * Further properties *)

(** ** Blocks guarded by LockGuard<Mutex> and by LockGuard<pthread_mutex_t> *)

Lemma Mutex_guard_ctor_run {W : Type} (h : Env pthread W) (m : Mutex.t)
  (w : W) :
  run h (interp LockGuard.Mutex_methods (LockGuard.ctor unit unit m)) w
  = ([pthread_mutex_lock (Mutex.mutex_ m)],
     option_map (fun xw => ({| LockGuard.mutex_ := m |}, snd xw))
                (h (pthread_mutex_lock (Mutex.mutex_ m)) w)).
Proof.
  simpl. destruct (h (pthread_mutex_lock (Mutex.mutex_ m)) w) as [[x w1]|];
    reflexivity.
Qed.

Lemma Mutex_guard_dtor_run {W : Type} (h : Env pthread W)
  (g : LockGuard.t Mutex.t) (w : W) :
  run h (interp LockGuard.Mutex_methods (LockGuard.dtor unit unit g)) w
  = ([pthread_mutex_unlock (Mutex.mutex_ (LockGuard.mutex_ g))],
     option_map (fun xw => (tt, snd xw))
       (h (pthread_mutex_unlock (Mutex.mutex_ (LockGuard.mutex_ g))) w)).
Proof.
  simpl.
  destruct (h (pthread_mutex_unlock (Mutex.mutex_ (LockGuard.mutex_ g))) w)
    as [[x w1]|]; reflexivity.
Qed.

Lemma Mutex_scope_cases :
  forall (W A : Type) (h : Env pthread W) (m : Mutex.t)
         (body : Prog pthread A) (w : W),
    run h (Mutex_scope m body) w
    = match h (pthread_mutex_lock (Mutex.mutex_ m)) w with
      | None => ([pthread_mutex_lock (Mutex.mutex_ m)], None)
      | Some (_, w1) =>
          match run h body w1 with
          | (t, None) => (pthread_mutex_lock (Mutex.mutex_ m) :: t, None)
          | (t, Some (r, w2)) =>
              (pthread_mutex_lock (Mutex.mutex_ m) :: t
                 ++ [pthread_mutex_unlock (Mutex.mutex_ m)],
               option_map (fun xw => (r, snd xw))
                 (h (pthread_mutex_unlock (Mutex.mutex_ m)) w2))
          end
      end.
Proof.
  intros W A h m body w. unfold Mutex_scope.
  rewrite run_bind, Mutex_guard_ctor_run.
  destruct (h (pthread_mutex_lock (Mutex.mutex_ m)) w) as [[x w1]|];
    [|reflexivity].
  cbn [option_map snd]. rewrite run_bind.
  destruct (run h body w1) as [t [[r w2]|]]; [|reflexivity].
  rewrite run_bind, Mutex_guard_dtor_run. cbn [LockGuard.mutex_].
  destruct (h (pthread_mutex_unlock (Mutex.mutex_ m)) w2) as [[y w3]|];
    reflexivity.
Qed.

Lemma raw_scope_cases :
  forall (W A : Type) (h : Env pthread W) (mutex : addr)
         (body : Prog pthread A) (w : W),
    run h (raw_scope mutex body) w
    = match h (pthread_mutex_lock mutex) w with
      | None => ([pthread_mutex_lock mutex], None)
      | Some (r, w1) =>
          match run h body w1 with
          | (t, None) => (pthread_mutex_lock mutex :: t, None)
          | (t, Some (a, w2)) =>
              if r =? 0
              then (pthread_mutex_lock mutex :: t
                      ++ [pthread_mutex_unlock mutex],
                    option_map (fun xw => (a, snd xw))
                      (h (pthread_mutex_unlock mutex) w2))
              else (pthread_mutex_lock mutex :: t, Some (a, w2))
          end
      end.
Proof.
  intros W A h mutex body w. unfold raw_scope.
  rewrite run_bind.
  unfold LockGuard_pthread_mutex_t.ctor at 1, call. simpl run at 1.
  destruct (h (pthread_mutex_lock mutex) w) as [[r w1]|]; [|reflexivity].
  cbn iota beta. rewrite run_bind.
  destruct (run h body w1) as [t [[a w2]|]]; [|reflexivity].
  rewrite run_bind, raw_guard_dtor_run. simpl.
  destruct (r =? 0).
  - destruct (h (pthread_mutex_unlock mutex) w2) as [[y w3]|]; reflexivity.
  - simpl. rewrite app_nil_r. reflexivity.
Qed.

(** X1. A block guarded by LockGuard<Mutex>, in every native environment:
    the first call is the native lock of the Mutex's own native mutex; if
    that call never returns nothing else happens; otherwise the block's code
    runs, whatever status the lock returned; if the block never finishes no
    unlock is issued; if it finishes, the native unlock of the same native
    mutex is the next and last call, and the block's outcome is returned
    once the unlock returns. *)
Theorem X1_Mutex_scope_run :
  forall (W A : Type) (h : Env pthread W) (m : Mutex.t)
         (body : Prog pthread A) (w : W),
    run h (Mutex_scope m body) w
    = match h (pthread_mutex_lock (Mutex.mutex_ m)) w with
      | None => ([pthread_mutex_lock (Mutex.mutex_ m)], None)
      | Some (_, w1) =>
          match run h body w1 with
          | (t, None) => (pthread_mutex_lock (Mutex.mutex_ m) :: t, None)
          | (t, Some (r, w2)) =>
              (pthread_mutex_lock (Mutex.mutex_ m) :: t
                 ++ [pthread_mutex_unlock (Mutex.mutex_ m)],
               option_map (fun xw => (r, snd xw))
                 (h (pthread_mutex_unlock (Mutex.mutex_ m)) w2))
          end
      end.
Proof. exact Mutex_scope_cases. Qed.

(** X2. A block guarded by LockGuard<pthread_mutex_t>, in every native
    environment: the first call is the native lock of the given mutex; if it
    never returns nothing else happens; otherwise the block's code runs; if
    the block never finishes no unlock is issued; if it finishes, the native
    unlock of the same mutex follows when the lock had returned 0, and when
    the lock had returned another status the block's outcome is returned
    with no further call. *)
Theorem X2_raw_scope_run :
  forall (W A : Type) (h : Env pthread W) (mutex : addr)
         (body : Prog pthread A) (w : W),
    run h (raw_scope mutex body) w
    = match h (pthread_mutex_lock mutex) w with
      | None => ([pthread_mutex_lock mutex], None)
      | Some (r, w1) =>
          match run h body w1 with
          | (t, None) => (pthread_mutex_lock mutex :: t, None)
          | (t, Some (a, w2)) =>
              if r =? 0
              then (pthread_mutex_lock mutex :: t
                      ++ [pthread_mutex_unlock mutex],
                    option_map (fun xw => (a, snd xw))
                      (h (pthread_mutex_unlock mutex) w2))
              else (pthread_mutex_lock mutex :: t, Some (a, w2))
          end
      end.
Proof. exact raw_scope_cases. Qed.

(** X3. The two guards around the same block on the same native mutex: when
    the native lock returns 0 their runs are identical; when it returns
    another status and the block finishes, the raw-handle guard issues no
    unlock while LockGuard<Mutex> still issues the native unlock, of a mutex
    the lock call did not grant. *)
Theorem X3_guards_differ_only_after_failed_lock :
  forall (W A : Type) (h : Env pthread W) (m : Mutex.t)
         (body : Prog pthread A) (w w1 : W) (r : Z),
    h (pthread_mutex_lock (Mutex.mutex_ m)) w = Some (r, w1) ->
    (r = 0 ->
     run h (Mutex_scope m body) w = run h (raw_scope (Mutex.GetMutex m) body) w)
    /\ (r <> 0 ->
        forall (a : A) (w2 : W),
          result h body w1 = Some (a, w2) ->
          trace h (raw_scope (Mutex.GetMutex m) body) w
            = pthread_mutex_lock (Mutex.mutex_ m) :: trace h body w1
          /\ trace h (Mutex_scope m body) w
            = pthread_mutex_lock (Mutex.mutex_ m) :: trace h body w1
                ++ [pthread_mutex_unlock (Mutex.mutex_ m)]).
Proof.
  intros W A h m body w w1 r Hl. unfold Mutex.GetMutex, trace, result.
  rewrite Mutex_scope_cases, raw_scope_cases, Hl.
  split.
  - intros ->. simpl. destruct (run h body w1) as [t [[a w2]|]]; reflexivity.
  - intros Hr a w2 Hb. apply Z.eqb_neq in Hr. rewrite Hr.
    destruct (run h body w1) as [t rb]. simpl in Hb. subst rb.
    split; reflexivity.
Qed.

(** The native lock fails with [EBUSY] around an empty block: the raw-handle
    guard stops after the lock, LockGuard<Mutex> goes on to unlock. *)
Lemma X3_witness :
  Fake.env (fun r => r) (pthread_mutex_lock 5%N)
    [(Fake.EBUSY, None); (0, None)]
    = Some (Fake.EBUSY, [(0, None)])
  /\ Fake.EBUSY <> 0
  /\ result (Fake.env (fun r => r)) (Ret tt) [(0, None)]
     = Some (tt, [(0, None)])
  /\ trace (Fake.env (fun r => r))
       (raw_scope (Mutex.GetMutex {| Mutex.mutex_ := 5%N |}) (Ret tt))
       [(Fake.EBUSY, None); (0, None)]
     = [pthread_mutex_lock 5%N]
  /\ trace (Fake.env (fun r => r))
       (Mutex_scope {| Mutex.mutex_ := 5%N |} (Ret tt))
       [(Fake.EBUSY, None); (0, None)]
     = [pthread_mutex_lock 5%N; pthread_mutex_unlock 5%N].
Proof.
  split; [reflexivity|]. split; [discriminate|]. split; [reflexivity|].
  refine (proj2
            (X3_guards_differ_only_after_failed_lock _ _
               (Fake.env (fun r => r)) {| Mutex.mutex_ := 5%N |} (Ret tt)
               [(Fake.EBUSY, None); (0, None)] [(0, None)] Fake.EBUSY eq_refl)
            _ tt [(0, None)] eq_refl).
  discriminate.
Defined.

(** ** Blocks guarded by the template, in general *)

Lemma guard_scope_cases {M LockRet UnlockRet W A : Type}
  (h : Env (LockGuard.iface M LockRet UnlockRet) W) (mutex : M)
  (body : Prog _ A) (w : W) :
  run h (LockGuard.scope LockRet UnlockRet mutex body) w
  = match h (LockGuard.Lock mutex) w with
    | None => ([LockGuard.Lock mutex], None)
    | Some (_, w1) =>
        match run h body w1 with
        | (t, None) => (LockGuard.Lock mutex :: t, None)
        | (t, Some (a, w2)) =>
            (LockGuard.Lock mutex :: t ++ [LockGuard.Unlock mutex],
             option_map (fun yw => (a, snd yw))
                        (h (LockGuard.Unlock mutex) w2))
        end
    end.
Proof.
  unfold LockGuard.scope. rewrite run_bind, guard_ctor_run.
  destruct (h (LockGuard.Lock mutex) w) as [[x w1]|]; [|reflexivity].
  cbn [option_map snd]. rewrite run_bind.
  destruct (run h body w1) as [t [[a w2]|]]; [|reflexivity].
  rewrite run_bind, guard_dtor_run. cbn [LockGuard.mutex_].
  destruct (h (LockGuard.Unlock mutex) w2) as [[y w3]|]; reflexivity.
Qed.

(** X4. For every lock type M: while the constructor's Lock has not
    returned, none of the block's code runs and the guard never calls
    Unlock; and when the block's code never finishes, the guard adds no
    Unlock to the calls the block made itself. *)
Theorem X4_generic_guard_when_something_blocks :
  forall (M LockRet UnlockRet W A : Type)
         (h : Env (LockGuard.iface M LockRet UnlockRet) W)
         (mutex : M) (body : Prog _ A) (w : W),
    (h (LockGuard.Lock mutex) w = None ->
     run h (LockGuard.scope LockRet UnlockRet mutex body) w
     = ([LockGuard.Lock mutex], None))
    /\ (forall (x : LockRet) (w1 : W),
          h (LockGuard.Lock mutex) w = Some (x, w1) ->
          result h body w1 = None ->
          run h (LockGuard.scope LockRet UnlockRet mutex body) w
          = (LockGuard.Lock mutex :: trace h body w1, None)
          /\ filter LockGuard.is_Unlock
               (trace h (LockGuard.scope LockRet UnlockRet mutex body) w)
             = filter LockGuard.is_Unlock (trace h body w1)).
Proof.
  intros M LR UR W A h mutex body w. split.
  - intros Hl. rewrite guard_scope_cases, Hl. reflexivity.
  - intros x w1 Hl Hb. unfold trace, result in *.
    rewrite guard_scope_cases, Hl.
    destruct (run h body w1) as [t rb]. simpl in Hb. subst rb.
    split; reflexivity.
Qed.

(** Lock 7 is held: a guard on lock 7 never gets past its constructor. *)
Lemma X4_witness :
  Fake.locks (LockGuard.Lock 7%N) [7%N] = None
  /\ run Fake.locks
       (LockGuard.scope unit unit 7%N
          (call (S := LockGuard.iface N unit unit) (LockGuard.Unlock 7%N);; Ret tt)) [7%N]
     = ([LockGuard.Lock 7%N], None).
Proof.
  split; [reflexivity|].
  exact (proj1 (X4_generic_guard_when_something_blocks _ _ _ _ _
                  Fake.locks 7%N (call (S := LockGuard.iface N unit unit) (LockGuard.Unlock 7%N);; Ret tt)
                  [7%N]) eq_refl).
Defined.

(** X5. Two guards declared one after the other in a block, for every lock
    type M: the locks are taken in the order of the declarations and
    released in the opposite order, the block's own calls in between. *)
Theorem X5_nested_guards_release_in_reverse_order :
  forall (M LockRet UnlockRet W A : Type)
         (h : Env (LockGuard.iface M LockRet UnlockRet) W)
         (m1 m2 : M) (body : Prog _ A)
         (w w1 w2 w3 w4 : W) (x1 x2 : LockRet) (y : UnlockRet) (a : A),
    h (LockGuard.Lock m1) w = Some (x1, w1) ->
    h (LockGuard.Lock m2) w1 = Some (x2, w2) ->
    result h body w2 = Some (a, w3) ->
    h (LockGuard.Unlock m2) w3 = Some (y, w4) ->
    run h (LockGuard.scope LockRet UnlockRet m1
             (LockGuard.scope LockRet UnlockRet m2 body)) w
    = (LockGuard.Lock m1 :: LockGuard.Lock m2 :: trace h body w2
         ++ [LockGuard.Unlock m2; LockGuard.Unlock m1],
       option_map (fun yw => (a, snd yw)) (h (LockGuard.Unlock m1) w4)).
Proof.
  intros M LR UR W A h m1 m2 body w w1 w2 w3 w4 x1 x2 y a H1 H2 Hb Hu.
  unfold trace, result in *.
  rewrite guard_scope_cases, H1, guard_scope_cases, H2.
  destruct (run h body w2) as [t rb]. simpl in Hb. subst rb.
  rewrite Hu. cbn [option_map snd fst].
  simpl. rewrite <- app_assoc. reflexivity.
Qed.

(** Guards on locks 1 and 2 around a block that makes no call. *)
Lemma X5_witness :
  run Fake.locks
    (LockGuard.scope unit unit 1%N (LockGuard.scope unit unit 2%N (Ret tt)))
    []
  = ([LockGuard.Lock 1%N; LockGuard.Lock 2%N;
      LockGuard.Unlock 2%N; LockGuard.Unlock 1%N],
     Some (tt, [])).
Proof.
  exact (X5_nested_guards_release_in_reverse_order _ _ _ _ _
           Fake.locks 1%N 2%N (Ret tt) [] [1%N] [2%N; 1%N] [2%N; 1%N] [1%N]
           tt tt tt tt eq_refl eq_refl eq_refl eq_refl).
Defined.

(** ** Sequences of calls *)

Section Sequences.

Context {S : Sig} {W : Type} (h : Env S W).

Lemma result_bind_inv {A B : Type} (p : Prog S A) (f : A -> Prog S B)
  (w w2 : W) (b : B) :
  result h (bind p f) w = Some (b, w2) ->
  exists (a : A) (w1 : W),
    result h p w = Some (a, w1) /\ result h (f a) w1 = Some (b, w2).
Proof.
  unfold result. rewrite run_bind.
  destruct (run h p w) as [t [[a w1]|]]; [|discriminate].
  intros H. exists a, w1. split; [reflexivity|].
  destruct (run h (f a) w1). exact H.
Qed.

Lemma Forall_trace_bind {A B : Type} (P : op S -> Prop) (p : Prog S A)
  (f : A -> Prog S B) (w : W) :
  Forall P (trace h p w) ->
  (forall (a : A) (w1 : W),
      result h p w = Some (a, w1) -> Forall P (trace h (f a) w1)) ->
  Forall P (trace h (bind p f) w).
Proof.
  unfold trace, result. intros Hp Hf. rewrite run_bind.
  destruct (run h p w) as [t [[a w1]|]]; [|exact Hp].
  specialize (Hf a w1 eq_refl). destruct (run h (f a) w1) as [t' r].
  simpl in *. apply Forall_app. split; assumption.
Qed.

End Sequences.

(** ** The life of a Mutex object *)

Lemma Mutex_dtor_run {W : Type} (h : Env pthread W) (m : Mutex.t) (w : W) :
  run h (Mutex.dtor m) w
  = ([pthread_mutex_destroy (Mutex.mutex_ m)],
     option_map (fun xw => (tt, snd xw))
                (h (pthread_mutex_destroy (Mutex.mutex_ m)) w)).
Proof. unfold Mutex.dtor. by_statement. Qed.

Lemma Mutex_do_run {W : Type} (h : Env pthread W) (m : Mutex.t)
  (o : Mutex_op) (w : W) :
  run h (Mutex_do m o) w
  = ([Mutex_call (Mutex.mutex_ m) o],
     option_map (fun xw => (tt, snd xw))
                (h (Mutex_call (Mutex.mutex_ m) o) w)).
Proof.
  destruct o; unfold Mutex_do, Mutex.Lock, Mutex.Unlock; by_statement.
Qed.

Lemma Mutex_use_calls {W : Type} (h : Env pthread W) (m : Mutex.t)
  (ops : list Mutex_op) (w : W) :
  Forall (fun c => mutex_of c = Some (Mutex.mutex_ m))
         (trace h (Mutex_use m ops) w).
Proof.
  revert w. induction ops as [|o ops IH]; intros w; simpl.
  - constructor.
  - apply Forall_trace_bind; [|intros _ w1 _; apply IH].
    unfold trace. rewrite Mutex_do_run. simpl.
    constructor; [destruct o; reflexivity | constructor].
Qed.

Lemma Mutex_use_returns {W : Type} (h : Env pthread W) (m : Mutex.t)
  (ops : list Mutex_op) (w w' : W) (u : unit) :
  result h (Mutex_use m ops) w = Some (u, w') ->
  trace h (Mutex_use m ops) w = map (Mutex_call (Mutex.mutex_ m)) ops.
Proof.
  revert w. induction ops as [|o ops IH]; intros w H; simpl in *.
  - reflexivity.
  - destruct (result_bind_inv h _ _ w _ _ H) as (a & w1 & Ha & Hr).
    rewrite (trace_bind_returns h _ _ w w1 a Ha).
    unfold trace at 1. rewrite Mutex_do_run. simpl.
    f_equal. apply IH. exact Hr.
Qed.

(** X6. Over the whole life of a Mutex object, with any sequence of Lock
    and Unlock between construction and destruction and in every native
    environment: the first native call initialises the object's native mutex
    with default attributes; every native call is a mutex call on that one
    native mutex; and when the life runs to its end the calls are the
    initialisation, one lock or unlock per method call in the caller's
    order, and the destruction last. *)
Theorem X6_Mutex_life_stays_on_its_native_mutex :
  forall (W : Type) (h : Env pthread W) (this : addr)
         (ops : list Mutex_op) (w : W),
    (exists t, trace h (Mutex_life this ops) w
               = pthread_mutex_init this None :: t)
    /\ Forall (fun c => mutex_of c = Some this)
              (trace h (Mutex_life this ops) w)
    /\ (forall w' : W,
          result h (Mutex_life this ops) w = Some (tt, w') ->
          trace h (Mutex_life this ops) w
          = pthread_mutex_init this None
              :: map (Mutex_call this) ops ++ [pthread_mutex_destroy this]).
Proof.
  intros W h this ops w. unfold Mutex_life.
  assert (Hc := Mutex_ctor_run h this w).
  assert (Hobj : forall (m : Mutex.t) (w1 : W),
             result h (Mutex.ctor this) w = Some (m, w1) ->
             m = {| Mutex.mutex_ := this |}).
  { intros m w1. unfold result. rewrite Hc.
    destruct (h (pthread_mutex_init this None) w) as [[x w2]|];
      simpl; congruence. }
  split; [|split].
  - unfold trace. rewrite run_bind, Hc.
    destruct (h (pthread_mutex_init this None) w) as [[x w1]|]; simpl.
    + destruct (run h _ w1) as [t r]. exists t. reflexivity.
    + exists []. reflexivity.
  - apply Forall_trace_bind.
    + unfold trace. rewrite Hc. repeat constructor.
    + intros m w1 Hm. rewrite (Hobj m w1 Hm).
      apply Forall_trace_bind.
      * apply (Mutex_use_calls h {| Mutex.mutex_ := this |}).
      * intros _ w2 _. unfold trace. rewrite Mutex_dtor_run.
        repeat constructor.
  - intros w' H.
    destruct (result_bind_inv h _ _ w _ _ H) as (m & w1 & Hm & H1).
    rewrite (trace_bind_returns h _ _ w w1 m Hm).
    rewrite (Hobj m w1 Hm) in *.
    unfold trace at 1. rewrite Hc. simpl. f_equal.
    destruct (result_bind_inv h _ _ w1 _ _ H1) as (u & w2 & Hu & H2).
    rewrite (trace_bind_returns h _ _ w1 w2 u Hu).
    rewrite (Mutex_use_returns h {| Mutex.mutex_ := this |} ops w1 w2 u Hu).
    f_equal. unfold trace. rewrite Mutex_dtor_run. reflexivity.
Qed.

(** A Mutex constructed, locked, unlocked and destroyed, every native call
    succeeding. *)
Lemma X6_witness :
  result (Fake.env (fun r => r)) (Mutex_life 5%N [do_Lock; do_Unlock])
    [(0, None); (0, None); (0, None); (0, None)]
  = Some (tt, [])
  /\ trace (Fake.env (fun r => r)) (Mutex_life 5%N [do_Lock; do_Unlock])
       [(0, None); (0, None); (0, None); (0, None)]
     = [pthread_mutex_init 5%N None; pthread_mutex_lock 5%N;
        pthread_mutex_unlock 5%N; pthread_mutex_destroy 5%N].
Proof.
  split; [reflexivity|].
  exact (proj2 (proj2
           (X6_Mutex_life_stays_on_its_native_mutex _ (Fake.env (fun r => r))
              5%N [do_Lock; do_Unlock]
              [(0, None); (0, None); (0, None); (0, None)]))
           [] eq_refl).
Defined.

(** ** The life of a ConditionVariable object *)

Lemma ConditionVariable_ctor_returns {W : Type} (h : Env pthread W)
  (b : bool) (this attr : addr) (mutex : Mutex.t)
  (cv : ConditionVariable.t) (w w' : W) :
  result h (ConditionVariable.ctor b this attr mutex) w = Some (cv, w') ->
  cv = {| ConditionVariable.mutex_ := mutex; ConditionVariable.cond_ := this |}
  /\ trace h (ConditionVariable.ctor b this attr mutex) w
     = if b
       then [pthread_cond_init this None]
       else [pthread_condattr_init attr;
             pthread_condattr_setclock attr CLOCK_MONOTONIC;
             pthread_cond_init this (Some attr);
             pthread_condattr_destroy attr].
Proof.
  unfold result, trace, ConditionVariable.ctor, call.
  destruct b; simpl; split_answers h; simpl; intros H;
    try discriminate; injection H as <- _; split; reflexivity.
Qed.

(** X7. When the ConditionVariable constructor returns, in every native
    environment, the object it returns refers to the Mutex it was given and
    to the condition variable at its own address, in both build flavors.  In
    the fallback flavor it has made the one initialisation call with default
    attributes and touched no attribute object.  In the monotonic-clock
    flavor it has initialised its local attribute object first, set its clock
    to CLOCK_MONOTONIC, initialised the condition variable with it, and
    destroyed the attribute object last, each exactly once. *)
Theorem X7_ConditionVariable_ctor_binds_and_cleans_up :
  forall (W : Type) (h : Env pthread W) (sdk_before_L : bool)
         (this attr : addr) (mutex : Mutex.t)
         (cv : ConditionVariable.t) (w w' : W),
    result h (ConditionVariable.ctor sdk_before_L this attr mutex) w
      = Some (cv, w') ->
    cv = {| ConditionVariable.mutex_ := mutex;
            ConditionVariable.cond_ := this |}
    /\ trace h (ConditionVariable.ctor sdk_before_L this attr mutex) w
       = if sdk_before_L
         then [pthread_cond_init this None]
         else [pthread_condattr_init attr;
               pthread_condattr_setclock attr CLOCK_MONOTONIC;
               pthread_cond_init this (Some attr);
               pthread_condattr_destroy attr].
Proof.
  intros W h b this attr mutex cv w w'.
  apply ConditionVariable_ctor_returns.
Qed.

(** The monotonic-clock flavor with the attribute initialisation failing:
    the constructor goes through all four calls and returns its object. *)
Lemma X7_witness :
  result (Fake.env (fun r => r))
    (ConditionVariable.ctor false 8%N 9%N {| Mutex.mutex_ := 5%N |})
    [(Fake.EAGAIN, None); (0, None); (0, None); (0, None)]
  = Some ({| ConditionVariable.mutex_ := {| Mutex.mutex_ := 5%N |};
             ConditionVariable.cond_ := 8%N |}, [])
  /\ trace (Fake.env (fun r => r))
       (ConditionVariable.ctor false 8%N 9%N {| Mutex.mutex_ := 5%N |})
       [(Fake.EAGAIN, None); (0, None); (0, None); (0, None)]
     = [pthread_condattr_init 9%N;
        pthread_condattr_setclock 9%N CLOCK_MONOTONIC;
        pthread_cond_init 8%N (Some 9%N);
        pthread_condattr_destroy 9%N].
Proof.
  split; [reflexivity|].
  exact (proj2
           (X7_ConditionVariable_ctor_binds_and_cleans_up
              _ (Fake.env (fun r => r)) false 8%N 9%N {| Mutex.mutex_ := 5%N |}
              {| ConditionVariable.mutex_ := {| Mutex.mutex_ := 5%N |};
                 ConditionVariable.cond_ := 8%N |}
              [(Fake.EAGAIN, None); (0, None); (0, None); (0, None)] []
              eq_refl)).
Defined.

Section ConditionVariableLife.

Context {W MonotonicTimePoint : Type}.
Variable h : Env pthread W.
Variable b : bool.
Variable ToTimespec : MonotonicTimePoint -> timespec.

Lemma CV_do_calls (cv : ConditionVariable.t) (attr : addr)
  (o : CV_op MonotonicTimePoint) (w : W) :
  Forall (fun e => cond_call_on (ConditionVariable.cond_ cv)
                     (Mutex.mutex_ (ConditionVariable.mutex_ cv)) attr e
                   = true)
         (trace h (CV_do b ToTimespec cv o) w).
Proof.
  unfold trace, CV_do, ConditionVariable.NotifyOne, ConditionVariable.NotifyAll,
    ConditionVariable.Wait, ConditionVariable.WaitUntil, Mutex.GetMutex, call.
  destruct o; try destruct b; simpl; split_answers h;
    repeat constructor; simpl; rewrite ?N.eqb_refl; reflexivity.
Qed.

Lemma CV_use_calls (cv : ConditionVariable.t) (attr : addr)
  (ops : list (CV_op MonotonicTimePoint)) (w : W) :
  Forall (fun e => cond_call_on (ConditionVariable.cond_ cv)
                     (Mutex.mutex_ (ConditionVariable.mutex_ cv)) attr e
                   = true)
         (trace h (CV_use b ToTimespec cv ops) w).
Proof.
  revert w. induction ops as [|o ops IH]; intros w; simpl.
  - constructor.
  - apply Forall_trace_bind; [apply CV_do_calls|].
    intros r w1 _. apply Forall_trace_bind; [apply IH|].
    intros rs w2 _. constructor.
Qed.

Lemma CV_use_length (cv : ConditionVariable.t)
  (ops : list (CV_op MonotonicTimePoint)) (w w' : W) (rs : list Z) :
  result h (CV_use b ToTimespec cv ops) w = Some (rs, w') ->
  length rs = length ops.
Proof.
  revert w rs. induction ops as [|o ops IH]; intros w rs H; simpl in *.
  - unfold result in H. simpl in H. injection H as <- _. reflexivity.
  - destruct (result_bind_inv h _ _ w _ _ H) as (r & w1 & _ & H1).
    destruct (result_bind_inv h _ _ w1 _ _ H1) as (rs' & w2 & Hrs & H2).
    unfold result in H2. simpl in H2. injection H2 as <- <-.
    simpl. f_equal. exact (IH w1 rs' Hrs).
Qed.

Lemma CV_do_one_call (cv : ConditionVariable.t)
  (o : CV_op MonotonicTimePoint) (w : W) :
  trace h (CV_do b ToTimespec cv o) w
  = [CV_call b ToTimespec (ConditionVariable.cond_ cv)
       (Mutex.mutex_ (ConditionVariable.mutex_ cv)) o].
Proof.
  unfold trace, CV_do, ConditionVariable.NotifyOne, ConditionVariable.NotifyAll,
    ConditionVariable.Wait, ConditionVariable.WaitUntil, Mutex.GetMutex, call.
  destruct o; try destruct b; simpl; split_answers h; reflexivity.
Qed.

Lemma CV_use_returns (cv : ConditionVariable.t)
  (ops : list (CV_op MonotonicTimePoint)) (w w' : W) (rs : list Z) :
  result h (CV_use b ToTimespec cv ops) w = Some (rs, w') ->
  trace h (CV_use b ToTimespec cv ops) w
  = map (CV_call b ToTimespec (ConditionVariable.cond_ cv)
           (Mutex.mutex_ (ConditionVariable.mutex_ cv))) ops.
Proof.
  revert w rs. induction ops as [|o ops IH]; intros w rs H; simpl in *.
  - reflexivity.
  - destruct (result_bind_inv h _ _ w _ _ H) as (r & w1 & Hr & H1).
    destruct (result_bind_inv h _ _ w1 _ _ H1) as (rs' & w2 & Hrs & H2).
    unfold result in H2. simpl in H2. injection H2 as <- <-.
    rewrite (trace_bind_returns h _ _ w w1 r Hr), CV_do_one_call.
    simpl. f_equal.
    rewrite (trace_bind_returns h _ _ w1 w2 rs' Hrs).
    unfold trace at 2. simpl. rewrite app_nil_r.
    exact (IH w1 rs' Hrs).
Qed.

Lemma ConditionVariable_dtor_run (cv : ConditionVariable.t) (w : W) :
  run h (ConditionVariable.dtor cv) w
  = ([pthread_cond_destroy (ConditionVariable.cond_ cv)],
     option_map (fun xw => (tt, snd xw))
                (h (pthread_cond_destroy (ConditionVariable.cond_ cv)) w)).
Proof. unfold ConditionVariable.dtor. by_statement. Qed.

Lemma ConditionVariable_ctor_calls (this attr : addr) (mutex : Mutex.t)
  (w : W) :
  Forall (fun e => cond_call_on this (Mutex.mutex_ mutex) attr e = true)
         (trace h (ConditionVariable.ctor b this attr mutex) w).
Proof.
  unfold trace, ConditionVariable.ctor, call.
  destruct b; simpl; split_answers h;
    repeat constructor; simpl; rewrite ?N.eqb_refl; reflexivity.
Qed.

End ConditionVariableLife.

(** X8. Over the whole life of a ConditionVariable object, in either build
    flavor, with any sequence of NotifyOne, NotifyAll, Wait and WaitUntil
    between construction and destruction and in every native environment:
    every native call is a call on the object's own condition variable, a
    wait on it with the native mutex of the Mutex given to the constructor,
    or a call on the constructor's attribute object; so the object never
    initialises, locks, unlocks or destroys the mutex and never touches a
    thread.  When the life runs to its end it hands back one status per
    method call, and its native calls are the constructor's, then one call
    per method call in the caller's order, then the destruction of the
    condition variable. *)
Theorem X8_ConditionVariable_life_stays_on_its_objects :
  forall (W MonotonicTimePoint : Type) (h : Env pthread W)
         (sdk_before_L : bool) (ToTimespec : MonotonicTimePoint -> timespec)
         (this attr : addr) (mutex : Mutex.t)
         (ops : list (CV_op MonotonicTimePoint)) (w : W),
    let life := CV_life sdk_before_L ToTimespec this attr mutex ops in
    Forall (fun e => cond_call_on this (Mutex.mutex_ mutex) attr e = true)
           (trace h life w)
    /\ Forall (fun e => mutex_of e = None) (trace h life w)
    /\ (forall (rs : list Z) (w' : W),
          result h life w = Some (rs, w') ->
          length rs = length ops
          /\ trace h life w
             = trace h (ConditionVariable.ctor sdk_before_L this attr mutex) w
                 ++ map (CV_call sdk_before_L ToTimespec this
                           (Mutex.mutex_ mutex)) ops
                 ++ [pthread_cond_destroy this]).
Proof.
  intros W T h b ToTs this attr mutex ops w life.
  assert (Hall : Forall (fun e => cond_call_on this (Mutex.mutex_ mutex) attr e
                                  = true) (trace h life w)).
  { subst life. unfold CV_life.
    apply Forall_trace_bind; [apply ConditionVariable_ctor_calls|].
    intros cv w1 Hcv.
    destruct (ConditionVariable_ctor_returns h b this attr mutex cv w w1 Hcv)
      as [-> _].
    apply Forall_trace_bind;
      [exact (CV_use_calls h b ToTs
                {| ConditionVariable.mutex_ := mutex;
                   ConditionVariable.cond_ := this |} attr ops w1)|].
    intros rs w2 _. apply Forall_trace_bind; [|intros; constructor].
    unfold trace. rewrite ConditionVariable_dtor_run. simpl.
    repeat constructor. simpl. rewrite N.eqb_refl. reflexivity. }
  split; [exact Hall|]. split.
  - eapply Forall_impl; [|exact Hall].
    intros e He. destruct e; simpl in *; try reflexivity; discriminate.
  - intros rs w' H. subst life. unfold CV_life in *.
    destruct (result_bind_inv h _ _ w _ _ H) as (cv & w1 & Hcv & H1).
    destruct (result_bind_inv h _ _ w1 _ _ H1) as (rs' & w2 & Hrs & H2).
    destruct (result_bind_inv h _ _ w2 _ _ H2) as (u & w3 & Hu & H3).
    unfold result in H3. simpl in H3. injection H3 as <- _.
    split; [exact (CV_use_length h b ToTs cv ops w1 w2 rs' Hrs)|].
    destruct (ConditionVariable_ctor_returns h b this attr mutex cv w w1 Hcv)
      as [-> _].
    rewrite (trace_bind_returns h _ _ w w1 _ Hcv). f_equal.
    rewrite (trace_bind_returns h _ _ w1 w2 rs' Hrs).
    rewrite (CV_use_returns h b ToTs _ ops w1 w2 rs' Hrs).
    cbn [ConditionVariable.cond_ ConditionVariable.mutex_]. f_equal.
    rewrite (trace_bind_returns h _ _ w2 w3 u Hu).
    unfold trace. rewrite ConditionVariable_dtor_run. reflexivity.
Qed.

(** A ConditionVariable built in the fallback flavor, notified, waited on
    and destroyed; the wait returns the status 110 given by the library. *)
Lemma X8_witness :
  result (Fake.env (fun r => r))
    (CV_life true (fun n : Z => {| tv_sec := n; tv_nsec := 0 |})
       8%N 9%N {| Mutex.mutex_ := 5%N |} [do_NotifyOne; do_WaitUntil 3])
    [(0, None); (0, None); (110, None); (0, None)]
  = Some ([0; 110], [])
  /\ length [0; 110] = length [@do_NotifyOne Z; do_WaitUntil 3].
Proof.
  split; [reflexivity|].
  exact (proj1 (proj2 (proj2
           (X8_ConditionVariable_life_stays_on_its_objects _ _
              (Fake.env (fun r => r)) true
              (fun n : Z => {| tv_sec := n; tv_nsec := 0 |})
              8%N 9%N {| Mutex.mutex_ := 5%N |} [do_NotifyOne; do_WaitUntil 3]
              [(0, None); (0, None); (110, None); (0, None)]))
           [0; 110] [] eq_refl)).
Defined.

(** ** Where statuses are dropped and where they are not *)

Lemma status_blind_bind {A B : Type} (p : Prog pthread A)
  (f : A -> Prog pthread B) :
  status_blind p ->
  (forall a, status_blind (f a)) ->
  status_blind (bind p f).
Proof.
  intros Hp Hf. induction Hp as [a | c k Hk _ IH]; simpl.
  - apply Hf.
  - apply blind_Vis.
    + intros x y Hxy. rewrite (Hk x y Hxy). reflexivity.
    + exact IH.
Qed.

Lemma Mutex_dtor_blind (m : Mutex.t) : status_blind (Mutex.dtor m).
Proof. unfold Mutex.dtor. auto with blind. Qed.

Lemma ConditionVariable_dtor_blind (cv : ConditionVariable.t) :
  status_blind (ConditionVariable.dtor cv).
Proof. unfold ConditionVariable.dtor. auto with blind. Qed.

Lemma ScopedThread_dtor_blind (s : ScopedThread.t) :
  status_blind (ScopedThread.dtor s).
Proof.
  unfold ScopedThread.dtor, call. simpl.
  apply blind_Vis; intros; [reflexivity | apply blind_Ret].
Qed.

Lemma Mutex_use_blind (m : Mutex.t) (ops : list Mutex_op) :
  status_blind (Mutex_use m ops).
Proof.
  induction ops as [|o ops IH]; simpl.
  - apply blind_Ret.
  - apply status_blind_bind; [|intros _; exact IH].
    destruct o; [apply Mutex_Lock_blind | apply Mutex_Unlock_blind].
Qed.

Lemma Mutex_scope_blind {A : Type} (m : Mutex.t) (body : Prog pthread A) :
  status_blind body -> status_blind (Mutex_scope m body).
Proof.
  intros Hb. unfold Mutex_scope. simpl.
  apply blind_Vis; [intros; reflexivity|]. intros _. simpl.
  apply status_blind_bind; [exact Hb|]. intros r. simpl.
  apply blind_Vis; intros; [reflexivity | apply blind_Ret].
Qed.

(** X9. Apart from the constructors, the status of a native call is also
    dropped by the destructors of Mutex, ConditionVariable and ScopedThread
    and by LockGuard<Mutex>: under two native libraries that differ only in
    the statuses they return, a Mutex destruction, a ConditionVariable
    destruction, the whole life of a ScopedThread, the whole life of a Mutex
    with any sequence of Lock and Unlock, and a LockGuard<Mutex> block whose
    own code ignores statuses, each issue the same calls and end the same
    way. *)
Theorem X9_destructors_and_guard_drop_status :
  forall (W : Type) (h1 h2 : Env pthread W),
    same_but_status h1 h2 ->
    forall (w : W) (m : Mutex.t) (cv : ConditionVariable.t)
           (thread0 : pthread_t) (start : fnptr) (arg : addr)
           (this : addr) (ops : list Mutex_op)
           (A : Type) (body : Prog pthread A),
      run h1 (Mutex.dtor m) w = run h2 (Mutex.dtor m) w
      /\ run h1 (ConditionVariable.dtor cv) w
         = run h2 (ConditionVariable.dtor cv) w
      /\ run h1 (ScopedThread_lifetime thread0 start arg) w
         = run h2 (ScopedThread_lifetime thread0 start arg) w
      /\ run h1 (Mutex_life this ops) w = run h2 (Mutex_life this ops) w
      /\ (status_blind body ->
          run h1 (Mutex_scope m body) w = run h2 (Mutex_scope m body) w).
Proof.
  intros W h1 h2 Hh w m cv thread0 start arg this ops A body.
  repeat split; try intros Hb; apply status_blind_run; try exact Hh.
  - apply Mutex_dtor_blind.
  - apply ConditionVariable_dtor_blind.
  - unfold ScopedThread_lifetime. apply status_blind_bind.
    + apply ScopedThread_ctor_blind.
    + apply ScopedThread_dtor_blind.
  - unfold Mutex_life. apply status_blind_bind; [apply Mutex_ctor_blind|].
    intros m'. apply status_blind_bind; [apply Mutex_use_blind|].
    intros _. apply Mutex_dtor_blind.
  - apply Mutex_scope_blind. exact Hb.
Qed.

(** With every native call failing, a Mutex is still constructed, locked,
    unlocked and destroyed as when every call succeeds. *)
Lemma X9_witness :
  same_but_status (Fake.env (fun r => r)) (Fake.env (fun _ => Fake.EAGAIN))
  /\ run (Fake.env (fun _ => Fake.EAGAIN)) (Mutex_life 5%N [do_Lock; do_Unlock])
       [(0, None); (0, None); (0, None); (0, None)]
     = ([pthread_mutex_init 5%N None; pthread_mutex_lock 5%N;
         pthread_mutex_unlock 5%N; pthread_mutex_destroy 5%N],
        Some (tt, [])).
Proof.
  split; [exact Fake_same_but_status|].
  rewrite <- (proj1 (proj2 (proj2 (proj2
                (X9_destructors_and_guard_drop_status _ _ _
                   Fake_same_but_status
                   [(0, None); (0, None); (0, None); (0, None)]
                   {| Mutex.mutex_ := 5%N |}
                   {| ConditionVariable.mutex_ := {| Mutex.mutex_ := 5%N |};
                      ConditionVariable.cond_ := 8%N |}
                   0%N 0%N 0%N 5%N [do_Lock; do_Unlock] unit (Ret tt)))))).
  reflexivity.
Defined.

(** X10. The statuses that do matter: the constructor of
    LockGuard<pthread_mutex_t> and the four operations of ConditionVariable
    depend on the status of their native call.  For each of them, whatever
    its arguments, there are two native libraries that differ only in the
    status returned under which it ends differently. *)
Theorem X10_status_matters_to_raw_guard_and_signal_operations :
  forall (mutex : addr) (cv : ConditionVariable.t)
         (sdk_before_L : bool) (MonotonicTimePoint : Type)
         (ToTimespec : MonotonicTimePoint -> timespec)
         (tp : MonotonicTimePoint),
    status_sensitive (LockGuard_pthread_mutex_t.ctor mutex)
    /\ status_sensitive (ConditionVariable.NotifyOne cv)
    /\ status_sensitive (ConditionVariable.NotifyAll cv)
    /\ status_sensitive (ConditionVariable.Wait cv)
    /\ status_sensitive
         (ConditionVariable.WaitUntil sdk_before_L ToTimespec cv tp).
Proof.
  intros mutex cv b T ToTs tp.
  assert (Hs : forall (A : Type) (p : Prog pthread A),
             run (Fake.env (fun r => r)) p [(0, None)]
             <> run (Fake.env (fun _ => Fake.EAGAIN)) p [(0, None)] ->
             status_sensitive p).
  { intros A p Hne.
    exists (list (Z * option N)), (Fake.env (fun r => r)),
      (Fake.env (fun _ => Fake.EAGAIN)), [(0, None)].
    split; [exact Fake_same_but_status | exact Hne]. }
  repeat split; apply Hs; try destruct b; simpl; discriminate.
Qed.

(** A program that depends on a status is not blind to statuses. *)
Lemma status_sensitive_not_blind {A : Type} (p : Prog pthread A) :
  status_sensitive p -> ~ status_blind p.
Proof.
  intros (W & h1 & h2 & w & Hh & Hne) Hb.
  apply Hne. apply status_blind_run; assumption.
Qed.

(** ** The three classes together *)

(** X11. A ConditionVariable constructed over a Mutex and then used inside a
    block that holds that Mutex through LockGuard<Mutex>: after the
    constructor's calls, the native calls are the lock of the Mutex's native
    mutex, the one call of the method on the object's condition variable,
    and the unlock of the same native mutex; a Wait or WaitUntil names as
    its mutex the very native mutex the guard has locked, and the status the
    method returned is the block's outcome. *)
Theorem X11_guarded_wait_uses_the_guarded_mutex :
  forall (W MonotonicTimePoint : Type) (h : Env pthread W)
         (sdk_before_L : bool) (ToTimespec : MonotonicTimePoint -> timespec)
         (this attr : addr) (mutex : Mutex.t)
         (o : CV_op MonotonicTimePoint)
         (cv : ConditionVariable.t) (w w1 w2 w3 : W) (r s : Z),
    result h (ConditionVariable.ctor sdk_before_L this attr mutex) w
      = Some (cv, w1) ->
    h (pthread_mutex_lock (Mutex.mutex_ mutex)) w1 = Some (r, w2) ->
    result h (CV_do sdk_before_L ToTimespec cv o) w2 = Some (s, w3) ->
    run h (guarded sdk_before_L ToTimespec this attr mutex o) w
    = (trace h (ConditionVariable.ctor sdk_before_L this attr mutex) w
         ++ [pthread_mutex_lock (Mutex.mutex_ mutex);
             CV_call sdk_before_L ToTimespec this (Mutex.mutex_ mutex) o;
             pthread_mutex_unlock (Mutex.mutex_ mutex)],
       option_map (fun xw => (s, snd xw))
                  (h (pthread_mutex_unlock (Mutex.mutex_ mutex)) w3)).
Proof.
  intros W T h b ToTs this attr mutex o cv w w1 w2 w3 r s Hc Hl Hd.
  destruct (ConditionVariable_ctor_returns h b this attr mutex cv w w1 Hc)
    as [Hcv _].
  unfold guarded. rewrite run_bind.
  unfold result, trace in *.
  destruct (run h (ConditionVariable.ctor b this attr mutex) w) as [tc rc].
  simpl in Hc. subst rc. cbn [fst].
  rewrite Mutex_scope_cases, Hl.
  assert (Ht := CV_do_one_call h b ToTs cv o w2). unfold trace in Ht.
  destruct (run h (CV_do b ToTs cv o) w2) as [td rd].
  simpl in Hd, Ht. subst rd td cv. simpl.
  destruct (h (pthread_mutex_unlock (Mutex.mutex_ mutex)) w3) as [[y w4]|];
    reflexivity.
Qed.

(** A wait with a deadline in the monotonic-clock flavor, every native call
    succeeding except the wait, which returns 110. *)
Lemma X11_witness :
  run (Fake.env (fun r => r))
    (guarded false (fun n : Z => {| tv_sec := n; tv_nsec := 0 |})
       8%N 9%N {| Mutex.mutex_ := 5%N |} (do_WaitUntil 3))
    [(0, None); (0, None); (0, None); (0, None);
     (0, None); (110, None); (0, None)]
  = ([pthread_condattr_init 9%N;
      pthread_condattr_setclock 9%N CLOCK_MONOTONIC;
      pthread_cond_init 8%N (Some 9%N);
      pthread_condattr_destroy 9%N;
      pthread_mutex_lock 5%N;
      pthread_cond_timedwait 8%N 5%N {| tv_sec := 3; tv_nsec := 0 |};
      pthread_mutex_unlock 5%N],
     Some (110, [])).
Proof.
  exact (X11_guarded_wait_uses_the_guarded_mutex _ _
           (Fake.env (fun r => r)) false
           (fun n : Z => {| tv_sec := n; tv_nsec := 0 |})
           8%N 9%N {| Mutex.mutex_ := 5%N |} (do_WaitUntil 3)
           {| ConditionVariable.mutex_ := {| Mutex.mutex_ := 5%N |};
              ConditionVariable.cond_ := 8%N |}
           [(0, None); (0, None); (0, None); (0, None);
            (0, None); (110, None); (0, None)]
           [(0, None); (110, None); (0, None)]
           [(110, None); (0, None)]
           [(0, None)]
           0 110 eq_refl eq_refl eq_refl).
Defined.

(** ** ConditionVariable: one flavor for construction and for WaitUntil *)

Lemma ConditionVariable_ctor_prefix {W : Type} (h : Env pthread W)
  (b : bool) (this attr : addr) (mutex : Mutex.t) (w : W) :
  exists n : nat,
    (0 < n)%nat
    /\ trace h (ConditionVariable.ctor b this attr mutex) w
       = firstn n (construction_calls (selected b) this attr).
Proof.
  unfold trace, ConditionVariable.ctor, call.
  destruct b; simpl; split_answers h;
    first [ exists 1%nat; split; [lia | reflexivity]
          | exists 2%nat; split; [lia | reflexivity]
          | exists 3%nat; split; [lia | reflexivity]
          | exists 4%nat; split; [lia | reflexivity] ].
Qed.

Lemma WaitUntil_trace {W T : Type} (h : Env pthread W) (b : bool)
  (ToTs : T -> timespec) (cv : ConditionVariable.t) (tp : T) (w : W) :
  trace h (ConditionVariable.WaitUntil b ToTs cv tp) w
  = [timed_wait_call (selected b) (ConditionVariable.cond_ cv)
       (Mutex.mutex_ (ConditionVariable.mutex_ cv)) (ToTs tp)].
Proof.
  unfold trace, ConditionVariable.WaitUntil, Mutex.GetMutex, call.
  destruct b; simpl; split_answers h; reflexivity.
Qed.

(** C5. One boolean, the value of the platform macro, selects the flavor
    (the fallback when it is true, the monotonic-clock flavor when it is
    false) for the constructor and for WaitUntil alike, whatever the native
    state, the answers of the library, the addresses and the time point.
    The calls of the constructor are a non-empty beginning of the selected
    flavor's construction calls (initialisation with default attributes for
    the fallback; attribute initialisation, clock set to CLOCK_MONOTONIC,
    initialisation with that attribute and attribute destruction for the
    other), and all of them when the constructor returns.  WaitUntil, on any
    object and in particular on the one a constructor of that build
    returned, issues exactly the timed wait of the same flavor (the
    monotonic-specific call for the fallback, the standard call for the
    other). *)
Theorem C5_flavor_fixed_by_platform_macro :
  forall (sdk_before_L : bool) (MonotonicTimePoint : Type)
         (ToTimespec : MonotonicTimePoint -> timespec)
         (W : Type) (h : Env pthread W) (w w' : W)
         (this attr : addr) (mutex : Mutex.t)
         (cv : ConditionVariable.t) (tp : MonotonicTimePoint),
    let f := selected sdk_before_L in
    let built :=
      trace h (ConditionVariable.ctor sdk_before_L this attr mutex) w in
    let waited :=
      trace h (ConditionVariable.WaitUntil sdk_before_L ToTimespec cv tp) w' in
    (exists n : nat,
        (0 < n)%nat /\ built = firstn n (construction_calls f this attr))
    /\ waited
       = [timed_wait_call f (ConditionVariable.cond_ cv)
            (Mutex.mutex_ (ConditionVariable.mutex_ cv)) (ToTimespec tp)]
    /\ Forall (fun c => flavor_of c = Some f) (built ++ waited)
    /\ (forall (cv' : ConditionVariable.t) (w1 : W),
          result h (ConditionVariable.ctor sdk_before_L this attr mutex) w
            = Some (cv', w1) ->
          built = construction_calls f this attr
          /\ forall (tp' : MonotonicTimePoint) (w2 : W),
              trace h
                (ConditionVariable.WaitUntil sdk_before_L ToTimespec cv' tp')
                w2
              = [timed_wait_call f this (Mutex.mutex_ mutex)
                   (ToTimespec tp')]).
Proof.
  intros b T ToTs W h w w' this attr mutex cv tp f built waited.
  assert (Hw : waited
               = [timed_wait_call f (ConditionVariable.cond_ cv)
                    (Mutex.mutex_ (ConditionVariable.mutex_ cv)) (ToTs tp)])
    by apply WaitUntil_trace.
  destruct (ConditionVariable_ctor_prefix h b this attr mutex w)
    as (n & Hn & Hb).
  fold built f in Hb.
  split; [exists n; split; assumption|].
  split; [exact Hw|]. split.
  - rewrite Hw, Hb. apply Forall_app. split.
    + assert (Hall : Forall (fun c => flavor_of c = Some f)
                            (construction_calls f this attr)).
      { subst f. destruct b; simpl; repeat constructor. }
      clear - Hall. revert n.
      induction Hall as [|c l Hc _ IH]; intros [|n]; simpl;
        constructor; auto.
    + subst f. destruct b; simpl; repeat constructor.
  - intros cv' w1 Hr.
    destruct (ConditionVariable_ctor_returns h b this attr mutex cv' w w1 Hr)
      as [-> Ht].
    split.
    + subst built f. rewrite Ht. destruct b; reflexivity.
    + intros tp' w2. subst f. apply (WaitUntil_trace h b ToTs).
Qed.

(** The monotonic-clock build, every native call succeeding: the four
    construction calls, then the standard timed wait on the object built. *)
Lemma C5_witness :
  result (Fake.env (fun r => r))
    (ConditionVariable.ctor false 8%N 9%N {| Mutex.mutex_ := 5%N |})
    [(0, None); (0, None); (0, None); (0, None)]
  = Some ({| ConditionVariable.mutex_ := {| Mutex.mutex_ := 5%N |};
             ConditionVariable.cond_ := 8%N |}, [])
  /\ trace (Fake.env (fun r => r))
       (ConditionVariable.ctor false 8%N 9%N {| Mutex.mutex_ := 5%N |})
       [(0, None); (0, None); (0, None); (0, None)]
     = [pthread_condattr_init 9%N;
        pthread_condattr_setclock 9%N CLOCK_MONOTONIC;
        pthread_cond_init 8%N (Some 9%N);
        pthread_condattr_destroy 9%N].
Proof.
  split; [reflexivity|].
  exact (proj1 (proj2 (proj2 (proj2
           (C5_flavor_fixed_by_platform_macro false _
              (fun n : Z => {| tv_sec := n; tv_nsec := 0 |})
              _ (Fake.env (fun r => r))
              [(0, None); (0, None); (0, None); (0, None)] []
              8%N 9%N {| Mutex.mutex_ := 5%N |}
              {| ConditionVariable.mutex_ := {| Mutex.mutex_ := 5%N |};
                 ConditionVariable.cond_ := 8%N |} 3)))
           {| ConditionVariable.mutex_ := {| Mutex.mutex_ := 5%N |};
              ConditionVariable.cond_ := 8%N |} [] eq_refl)).
Defined.

(** ** ConditionVariable: waiting until a deadline *)

Lemma Clocked_timed_wait_spec :
  native_timed_wait_spec Clocked.now Clocked.ETIMEDOUT Clocked.env.
Proof.
  intros c m ts w. simpl.
  assert (H : timed_wait_outcome Clocked.now Clocked.ETIMEDOUT ts w
                (Clocked.wake w) (Clocked.timed ts w)).
  { unfold timed_wait_outcome, Clocked.timed, times_out.
    destruct (ts_le ts (Clocked.now w)); [eexists; reflexivity|].
    destruct (Clocked.wake w) as [[r w1]|]; [|eexists; reflexivity].
    destruct (ts_le ts (Clocked.now w1)); [eexists; reflexivity | reflexivity]. }
  split; exact H.
Qed.

(** C6. Against any native library that keeps the platform's contract for
    timed waits on the monotonic clock: WaitUntil makes one native call, the
    timed wait of the build's flavor, on the condition variable and the
    native mutex that Wait uses, with the time point converted by
    ToTimespec as its deadline.  Its outcome relates to the outcome of Wait
    in the same state as the contract says: when Wait would return before
    the deadline WaitUntil returns the same status in the same state; when
    Wait would return at the deadline or later, or never, WaitUntil returns
    the timeout status.  With a deadline that is not later than the clock,
    WaitUntil returns, with the timeout status. *)
Theorem C6_WaitUntil_is_Wait_until_the_deadline :
  forall (W : Type) (now : W -> timespec) (ETIMEDOUT : Z)
         (h : Env pthread W),
    native_timed_wait_spec now ETIMEDOUT h ->
    forall (sdk_before_L : bool) (MonotonicTimePoint : Type)
           (ToTimespec : MonotonicTimePoint -> timespec)
           (cv : ConditionVariable.t) (tp : MonotonicTimePoint) (w : W),
      let c := ConditionVariable.cond_ cv in
      let m := Mutex.mutex_ (ConditionVariable.mutex_ cv) in
      trace h (ConditionVariable.Wait cv) w = [pthread_cond_wait c m]
      /\ trace h (ConditionVariable.WaitUntil sdk_before_L ToTimespec cv tp) w
         = [timed_wait_call (selected sdk_before_L) c m (ToTimespec tp)]
      /\ timed_wait_outcome now ETIMEDOUT (ToTimespec tp) w
           (result h (ConditionVariable.Wait cv) w)
           (result h
              (ConditionVariable.WaitUntil sdk_before_L ToTimespec cv tp) w)
      /\ (ts_le (ToTimespec tp) (now w) = true ->
          exists w' : W,
            result h
              (ConditionVariable.WaitUntil sdk_before_L ToTimespec cv tp) w
            = Some (ETIMEDOUT, w')).
Proof.
  intros W now ET h Hspec b T ToTs cv tp w c m.
  assert (Hwait : run h (ConditionVariable.Wait cv) w
                  = ([pthread_cond_wait c m], h (pthread_cond_wait c m) w)).
  { unfold ConditionVariable.Wait, Mutex.GetMutex. by_call. }
  assert (Hout : timed_wait_outcome now ET (ToTs tp) w
                   (result h (ConditionVariable.Wait cv) w)
                   (result h (ConditionVariable.WaitUntil b ToTs cv tp) w)).
  { unfold result. rewrite Hwait. cbn [snd].
    destruct (Hspec c m (ToTs tp) w) as [Hstd Hnp].
    unfold ConditionVariable.WaitUntil, Mutex.GetMutex. fold c m.
    destruct b; cbv zeta iota beta; unfold call; simpl.
    - destruct (h (pthread_cond_timedwait_monotonic_np c m (ToTs tp)) w)
        as [[r w1]|]; exact Hnp.
    - destruct (h (pthread_cond_timedwait c m (ToTs tp)) w)
        as [[r w1]|]; exact Hstd. }
  split; [unfold trace; rewrite Hwait; reflexivity|].
  split; [apply WaitUntil_trace|].
  split; [exact Hout|].
  intros Hpast. unfold timed_wait_outcome in Hout. rewrite Hpast in Hout.
  exact Hout.
Qed.

(** The clock reads 10 and a notification is due at 12.  A deadline of 7 is
    past: WaitUntil returns, with the timeout status. *)
Lemma C6_witness :
  native_timed_wait_spec Clocked.now Clocked.ETIMEDOUT Clocked.env
  /\ ts_le {| tv_sec := 7; tv_nsec := 0 |} (Clocked.now (10, Some 12)) = true
  /\ exists w' : Clocked.world,
      result Clocked.env
        (ConditionVariable.WaitUntil false
           (fun n : Z => {| tv_sec := n; tv_nsec := 0 |})
           {| ConditionVariable.mutex_ := {| Mutex.mutex_ := 5%N |};
              ConditionVariable.cond_ := 8%N |} 7)
        (10, Some 12)
      = Some (Clocked.ETIMEDOUT, w').
Proof.
  split; [exact Clocked_timed_wait_spec|]. split; [reflexivity|].
  exact (proj2 (proj2 (proj2
           (C6_WaitUntil_is_Wait_until_the_deadline
              _ Clocked.now Clocked.ETIMEDOUT Clocked.env
              Clocked_timed_wait_spec false _
              (fun n : Z => {| tv_sec := n; tv_nsec := 0 |})
              {| ConditionVariable.mutex_ := {| Mutex.mutex_ := 5%N |};
                 ConditionVariable.cond_ := 8%N |} 7 (10, Some 12))))
           eq_refl).
Defined.

(** In the same library, the clock at 10: with a deadline of 20 the
    notification at 12 comes first and WaitUntil ends as Wait does; with a
    deadline of 11 the deadline comes first and WaitUntil returns the timeout
    status; with a deadline of 7 it returns the timeout status with the
    clock still at 10. *)
Lemma Clocked_WaitUntil_runs :
  let cv := {| ConditionVariable.mutex_ := {| Mutex.mutex_ := 5%N |};
               ConditionVariable.cond_ := 8%N |} in
  let ToTs := fun n : Z => {| tv_sec := n; tv_nsec := 0 |} in
  result Clocked.env (ConditionVariable.WaitUntil false ToTs cv 20)
    (10, Some 12)
  = result Clocked.env (ConditionVariable.Wait cv) (10, Some 12)
  /\ result Clocked.env (ConditionVariable.Wait cv) (10, Some 12)
     = Some (0, (12, None))
  /\ result Clocked.env (ConditionVariable.WaitUntil false ToTs cv 11)
       (10, Some 12)
     = Some (Clocked.ETIMEDOUT, (11, Some 12))
  /\ result Clocked.env (ConditionVariable.WaitUntil true ToTs cv 11)
       (10, None)
     = Some (Clocked.ETIMEDOUT, (11, None))
  /\ result Clocked.env (ConditionVariable.WaitUntil false ToTs cv 7)
       (10, Some 12)
     = Some (Clocked.ETIMEDOUT, (10, Some 12)).
Proof. repeat split. Qed.

(** ** Mutex: mutual exclusion *)

Lemma nth_error_update_same {X : Type} (l : list X) (i : nat) (x y : X) :
  nth_error l i = Some y -> nth_error (update l i x) i = Some x.
Proof.
  revert i. induction l as [|z l IH]; intros [|i] H; simpl in *;
    try discriminate; [reflexivity | apply IH; exact H].
Qed.

Lemma nth_error_update_other {X : Type} (l : list X) (i j : nat) (x : X) :
  i <> j -> nth_error (update l i x) j = nth_error l j.
Proof.
  revert i j. induction l as [|z l IH]; intros [|i] [|j] H; simpl;
    try reflexivity; [contradiction | apply IH; congruence].
Qed.

Lemma Forall_update {X : Type} (P : X -> Prop) (l : list X) (i : nat) (x : X) :
  Forall P l -> P x -> Forall P (update l i x).
Proof.
  intros Hl Hx. revert i. induction Hl as [|z l Hz Hl IH]; intros [|i]; simpl;
    constructor; auto.
Qed.

Lemma quiet_Vis_inv (a : addr) (e : pthread_call)
  (k : pthread_ans e -> Prog pthread unit) :
  quiet a (Vis (S := pthread) e k) ->
  names_mutex a e = false /\ forall x, quiet a (k x).
Proof.
  intros H.
  change (match Vis (S := pthread) e k with
          | Ret _ => True
          | Vis e' k' => names_mutex a e' = false /\ forall x, quiet a (k' x)
          end).
  destruct H; [exact I | split; assumption].
Qed.

Section MutualExclusion.

Context {W : Type}.
Variable h : nat -> Env pthread W.
Variable m : Mutex.t.
Variable owner : W -> option nat.
Hypothesis Hspec : native_mutex_spec h owner (Mutex.mutex_ m).

Lemma thread_step_keeps (i : nat) (st st' : tstate) (w w' : W) :
  wf (Mutex.mutex_ m) st ->
  (holds st = true -> owner w = Some i) ->
  thread_step h m i st w = (st', w') ->
  wf (Mutex.mutex_ m) st'
  /\ (holds st' = true -> owner w' = Some i)
  /\ (forall j : nat, j <> i -> owner w = Some j -> owner w' = Some j).
Proof.
  destruct Hspec as [Hlock Hother].
  intros Hwf Hown Hstep.
  destruct st as [[u | e k] body | [u | e k] | [u | e k] |];
    simpl in Hstep, Hwf, Hown.
  - injection Hstep as <- <-. simpl. auto.
  - destruct Hwf as (-> & Hk & Hq).
    destruct (h i (pthread_mutex_lock (Mutex.mutex_ m)) w) as [[x w1]|] eqn:E;
      injection Hstep as <- <-.
    + destruct (Hlock i w w1 x E) as [Hfree Hmine].
      rewrite Hk. simpl. repeat split; auto.
      intros j _ Hj. congruence.
    + simpl. repeat split; auto.
  - injection Hstep as <- <-. simpl. repeat split; auto.
  - destruct (quiet_Vis_inv _ e k Hwf) as [Hn Hk].
    destruct (h i e w) as [[x w1]|] eqn:E; injection Hstep as <- <-.
    + assert (Ho := Hother i e w w1 x Hn E). simpl.
      repeat split; [apply Hk | rewrite Ho; auto | intros j _; rewrite Ho; auto].
    + simpl. repeat split; auto.
  - injection Hstep as <- <-. simpl. repeat split; auto; discriminate.
  - destruct Hwf as (-> & Hk).
    destruct (h i (pthread_mutex_unlock (Mutex.mutex_ m)) w) as [[x w1]|] eqn:E;
      injection Hstep as <- <-.
    + rewrite Hk. simpl. repeat split; [discriminate|].
      intros j Hj Hjo. rewrite (Hown eq_refl) in Hjo. congruence.
    + simpl. repeat split; auto.
  - injection Hstep as <- <-. simpl. repeat split; auto.
Qed.

Lemma pool_step_keeps (i : nat) (p : list tstate * W) :
  holder_invariant m owner p -> holder_invariant m owner (pool_step h m i p).
Proof.
  intros [Hwf Hown]. unfold pool_step.
  destruct (nth_error (fst p) i) as [st|] eqn:Ei; [|split; assumption].
  destruct (thread_step h m i st (snd p)) as [st' w'] eqn:Es.
  assert (Hst : wf (Mutex.mutex_ m) st).
  { rewrite Forall_forall in Hwf. apply Hwf.
    eapply nth_error_In. exact Ei. }
  destruct (thread_step_keeps i st st' (snd p) w' Hst (Hown i st Ei) Es)
    as (Hwf' & Hmine & Hrest).
  split; simpl.
  - apply Forall_update; assumption.
  - intros j stj Hj Hh. destruct (Nat.eq_dec i j) as [<- | Hne].
    + rewrite (nth_error_update_same (fst p) i st' st Ei) in Hj.
      injection Hj as <-. apply Hmine. exact Hh.
    + rewrite (nth_error_update_other (fst p) i j st' Hne) in Hj.
      apply Hrest; [congruence | exact (Hown j stj Hj Hh)].
Qed.

Lemma exec_keeps (sched : list nat) (p : list tstate * W) :
  holder_invariant m owner p -> holder_invariant m owner (exec h m sched p).
Proof.
  unfold exec. revert p. induction sched as [|i sched IH]; intros p Hp; simpl.
  - exact Hp.
  - apply IH. apply pool_step_keeps. exact Hp.
Qed.

Lemma start_invariant (bodies : list (Prog pthread unit)) (w : W) :
  Forall (quiet (Mutex.mutex_ m)) bodies ->
  holder_invariant m owner (start m bodies, w).
Proof.
  intros Hq. split; simpl.
  - unfold start. induction Hq as [|b bs Hb _ IH]; simpl; constructor; auto.
    simpl. repeat split; auto.
  - intros i st Hi Hh. unfold start in Hi.
    rewrite nth_error_map in Hi.
    destruct (nth_error bodies i); [|discriminate].
    injection Hi as <-. discriminate.
Qed.

End MutualExclusion.

Lemma at_most_one_inside (ts : list tstate) (o : option nat) (k : nat) :
  (forall (i : nat) (st : tstate),
      nth_error ts i = Some st -> inside st = true -> o = Some (k + i)%nat) ->
  (length (filter inside ts) <= 1)%nat.
Proof.
  revert k. induction ts as [|st ts IH]; intros k H; simpl.
  - lia.
  - destruct (inside st) eqn:Est.
    + assert (Ho := H 0%nat st eq_refl Est).
      assert (Hnone : filter inside ts = []).
      { clear IH. assert (Hts : forall i st', nth_error ts i = Some st' ->
                                  inside st' = true -> False).
        { intros i st' Hi Hs. assert (Ho' := H (S i) st' Hi Hs).
          rewrite Ho in Ho'. injection Ho' as Ho'. lia. }
        clear H Ho Est. induction ts as [|st' ts IH]; [reflexivity|].
        simpl. destruct (inside st') eqn:E.
        - exfalso. exact (Hts 0%nat st' eq_refl E).
        - apply IH. intros i st'' Hi. exact (Hts (S i) st'' Hi). }
      rewrite Hnone. simpl. lia.
    + apply (IH (S k)). intros i st' Hi Hs.
      rewrite (H (S i) st' Hi Hs). f_equal. lia.
Qed.

(** C8. Any number of threads share one Mutex and each runs Lock, its own
    critical section, then Unlock; the critical sections leave the shared
    native mutex alone.  Against any native library that keeps the
    platform's contract for that mutex (a lock returns only by granting the
    free mutex to the caller; calls that do not name the mutex do not change
    its holder), from any initial state and under any schedule: at most one
    thread is inside its critical section, and a thread that is inside is
    the holder of the native mutex, so it got there only after its lock call
    had been granted. *)
Theorem C8_Mutex_mutual_exclusion :
  forall (W : Type) (h : nat -> Env pthread W) (owner : W -> option nat)
         (m : Mutex.t),
    native_mutex_spec h owner (Mutex.mutex_ m) ->
    forall (bodies : list (Prog pthread unit)),
      Forall (quiet (Mutex.mutex_ m)) bodies ->
      forall (sched : list nat) (w0 : W),
        let final := exec h m sched (start m bodies, w0) in
        (length (filter inside (fst final)) <= 1)%nat
        /\ forall (i : nat) (st : tstate),
            nth_error (fst final) i = Some st ->
            inside st = true ->
            owner (snd final) = Some i.
Proof.
  intros W h owner m Hspec bodies Hq sched w0 final.
  assert (Hinv : holder_invariant m owner final).
  { subst final. apply exec_keeps; [exact Hspec|].
    apply start_invariant. exact Hq. }
  destruct Hinv as [_ Hown].
  assert (Hin : forall (i : nat) (st : tstate),
             nth_error (fst final) i = Some st ->
             inside st = true -> owner (snd final) = Some i).
  { intros i st Hi Hs. apply (Hown i st Hi).
    destruct st; try discriminate. reflexivity. }
  split; [|exact Hin].
  apply (at_most_one_inside (fst final) (owner (snd final)) 0).
  intros i st Hi Hs. simpl. exact (Hin i st Hi Hs).
Qed.

Lemma Table_mutex_spec (a : addr) :
  native_mutex_spec Table.env (fun w => w a) a.
Proof.
  split.
  - intros i w w' x H. simpl in H.
    destruct (w a) eqn:E; [discriminate|].
    injection H as _ <-. split; [reflexivity|].
    unfold Table.set. rewrite N.eqb_refl. reflexivity.
  - intros i e w w' x Hn H.
    destruct e; simpl in Hn, H;
      try (inversion H; reflexivity).
    + destruct (w m); [discriminate|]. inversion H.
      unfold Table.set. rewrite N.eqb_sym, Hn. reflexivity.
    + destruct (w m) as [j|]; [destruct (Nat.eqb j i)|];
        inversion H; try reflexivity.
      unfold Table.set. rewrite N.eqb_sym, Hn. reflexivity.
Qed.

(** Two threads on the Mutex at 5, the first with a critical section that
    signals a condition variable.  The first thread is granted the mutex and
    enters; the second is picked three times and stays in Lock. *)
Lemma C8_witness :
  native_mutex_spec Table.env (fun w => w 5%N) 5%N
  /\ Forall (quiet 5%N) [call (pthread_cond_signal 8%N);; Ret tt; Ret tt]
  /\ map inside
       (fst (exec Table.env {| Mutex.mutex_ := 5%N |}
               [0; 0; 1; 1; 1; 0]%nat
               (start {| Mutex.mutex_ := 5%N |}
                  [call (pthread_cond_signal 8%N);; Ret tt; Ret tt],
                Table.free)))
     = [true; false]
  /\ (length
        (filter inside
           (fst (exec Table.env {| Mutex.mutex_ := 5%N |}
                   [0; 0; 1; 1; 1; 0]%nat
                   (start {| Mutex.mutex_ := 5%N |}
                      [call (pthread_cond_signal 8%N);; Ret tt; Ret tt],
                    Table.free)))) <= 1)%nat.
Proof.
  assert (Hq : Forall (quiet 5%N)
                 [call (pthread_cond_signal 8%N);; Ret tt; Ret tt]).
  { repeat constructor. }
  split; [apply Table_mutex_spec|]. split; [exact Hq|].
  split; [reflexivity|].
  exact (proj1 (C8_Mutex_mutual_exclusion _ Table.env (fun w => w 5%N)
                  {| Mutex.mutex_ := 5%N |} (Table_mutex_spec 5%N)
                  [call (pthread_cond_signal 8%N);; Ret tt; Ret tt] Hq
                  [0; 0; 1; 1; 1; 0]%nat Table.free)).
Defined.
